(** * hpo_nni: the orchestration logic of the Auto3DSeg / NNI notebook

    A shallow embedding of the control logic and of the arithmetic of
    [auto3dseg/notebooks/hpo_nni.ipynb]: the dataset provisioner, the
    data-statistics step, the history fallback, the algorithm selector,
    the GPU-count resolution and the override calculator.

    Python integers are [Z].  Python floats are IEEE-754 binary64 values,
    taken from the Standard Library's [SpecFloat] (precision 53, [emax]
    1024), so that [/] and [int(...)] round as the interpreter does. *)

From Stdlib Require Import ZArith Lia List Bool String.
From Stdlib Require Import SpecFloat.
From Stdlib Require Import Reals Lra Psatz.
From stdpp Require Import gmap strings list.

Local Open Scope Z_scope.

(** ** Exceptions and results *)

(** The exception classes that the notebook's own statements can raise.
    [KeyboardInterrupt] stands for the classes that derive from
    [BaseException] but not from [Exception]. *)
Inductive exn : Type :=
  | ZeroDivisionError
  | OverflowError
  | ValueError
  | IndexError
  | KeyError
  | AssertionError
  | RuntimeError
  | KeyboardInterrupt.

(** [isinstance(e, Exception)]. *)
Definition is_Exception (e : exn) : bool :=
  match e with
  | KeyboardInterrupt => false
  | _ => true
  end.

(** The outcome of evaluating an expression: a value, or a raised exception. *)
Inductive result (A : Type) : Type :=
  | Ok (a : A)
  | Raise (e : exn).
Arguments Ok {A} a.
Arguments Raise {A} e.

Definition bind {A B : Type} (r : result A) (k : A -> result B) : result B :=
  match r with
  | Ok a => k a
  | Raise e => Raise e
  end.

Notation "'do' x <- r ; k" := (bind r (fun x => k))
  (at level 10, x name, r at level 100, k at level 200).

(** ** Python floats *)

Module PyFloat.

Definition prec : Z := 53.
Definition emax : Z := 1024.

Abbreviation float := spec_float.

(** Sign of a quotient: negative when exactly one operand is. *)
Definition quot_sign (a b : Z) : bool := xorb (a <? 0) (b <? 0).

(** [a / b] on two ints ([long_true_divide]): the quotient of the two
    integers, rounded once to the nearest float, ties to even. *)
Definition int_truediv (a b : Z) : result float :=
  if b =? 0 then Raise ZeroDivisionError
  else if a =? 0 then Ok (S754_zero (b <? 0))
  else
    let '(mz, ez, lz) := SFdiv_core_binary prec emax (Z.abs a) 0 (Z.abs b) 0 in
    match binary_round_aux prec emax (quot_sign a b) mz ez lz with
    | S754_infinity _ => Raise OverflowError
    | x => Ok x
    end.

(** [float(n)] as done for an int operand of a float operation
    ([PyLong_AsDouble]). *)
Definition of_int (n : Z) : result float :=
  match binary_normalize prec emax n 0 false with
  | S754_infinity _ => Raise OverflowError
  | x => Ok x
  end.

Definition is_zero (x : float) : bool :=
  match x with
  | S754_zero _ => true
  | _ => false
  end.

(** [x / n] with [x] a float and [n] an int ([float_div]): the int is
    converted first, a zero divisor is refused, then IEEE division. *)
Definition truediv_int (x : float) (n : Z) : result float :=
  do y <- of_int n ;
  if is_zero y then Raise ZeroDivisionError
  else Ok (SFdiv prec emax x y).

(** [int(x)] ([PyLong_FromDouble]): truncation towards zero. *)
Definition to_int (x : float) : result Z :=
  match x with
  | S754_zero _ => Ok 0
  | S754_infinity _ => Raise OverflowError
  | S754_nan => Raise ValueError
  | S754_finite s m e =>
      let t := match e with
               | Zneg p => Z.shiftr (Zpos m) (Zpos p)
               | _ => Z.shiftl (Zpos m) e
               end in
      Ok (if s then - t else t)
  end.

End PyFloat.

(** ** The override calculator (lines 211-230) *)

Record override :=
  { num_iterations : Z;
    num_iterations_per_validation : Z;
    num_images_per_batch : Z;
    num_epochs : Z;
    num_warmup_iterations : Z }.

(** [n_iter = int(num_epoch * n_data / num_images_per_batch / num_gpus)] *)
Definition n_iter (num_epoch n_data images_per_batch num_gpus : Z) : result Z :=
  do q1 <- PyFloat.int_truediv (num_epoch * n_data) images_per_batch ;
  do q2 <- PyFloat.truediv_int q1 num_gpus ;
  PyFloat.to_int q2.

(** [n_iter_val = int(n_iter / 2)] *)
Definition n_iter_val (n : Z) : result Z :=
  do h <- PyFloat.int_truediv n 2 ;
  PyFloat.to_int h.

(** Lines 218-230: from [num_epoch = max_epochs] to the [override_param]
    dict, as a function of the values read there. *)
Definition override_of (num_epoch images_per_batch n_data num_gpus : Z)
  : result override :=
  do n <- n_iter num_epoch n_data images_per_batch num_gpus ;
  do v <- n_iter_val n ;
  Ok {| num_iterations := n;
        num_iterations_per_validation := v;
        num_images_per_batch := images_per_batch;
        num_epochs := num_epoch;
        num_warmup_iterations := v |}.

(** The builtin [max(a, b)] on two ints: [b] when it is greater than [a],
    else [a]. *)
Definition py_max (a b : Z) : Z := if a <? b then b else a.

(** The safeguard [max_epochs = max(max_epochs, 2)]. *)
Definition safeguard (max_epochs : Z) : Z := py_max max_epochs 2.

(** The arithmetic of the cell as a function of the four values it reads:
    [max_epochs], [num_images_per_batch], [n_data] (literals in the
    notebook) and [num_gpus]. *)
Definition override_param (max_epochs images_per_batch n_data num_gpus : Z)
  : result override :=
  let max_epochs := safeguard max_epochs in
  let num_epoch := max_epochs in
  override_of num_epoch images_per_batch n_data num_gpus.

(** The overrides of the notebook as written (2 epochs, 2 images per
    batch, 24 images) on one GPU. *)
Definition notebook_override : override :=
  {| num_iterations := 24;
     num_iterations_per_validation := 12;
     num_images_per_batch := 2;
     num_epochs := 2;
     num_warmup_iterations := 12 |}.

(** ** The GPU count (line 216) *)

(** The scalar values a config entry can hold. *)
Inductive pyval : Type :=
  | PyNone
  | PyBool (b : bool)
  | PyInt (n : Z)
  | PyFloatV (x : PyFloat.float)
  | PyStr (s : string).

(** Truth value testing, as done by [not v]. *)
Definition truthy (v : pyval) : bool :=
  match v with
  | PyNone => false
  | PyBool b => b
  | PyInt n => negb (n =? 0)
  | PyFloatV x => negb (PyFloat.is_zero x)
  | PyStr s => negb (String.eqb s "")
  end.

(** [1 if "multigpu" in input_cfg and not input_cfg["multigpu"]
       else torch.cuda.device_count()].
    The subscript is evaluated only when the key is present ([and]
    short-circuits), so it cannot raise [KeyError]. *)
Definition num_gpus (input_cfg : gmap string pyval) (device_count : Z) : Z :=
  match input_cfg !! "multigpu"%string with
  | Some flag => if negb (truthy flag) then 1 else device_count
  | None => device_count
  end.

(** The dict literal of lines 132-138. *)
Definition input_cfg (msd_task datalist_file dataroot : string)
  : gmap string pyval :=
  <["name"%string := PyStr msd_task]>
  (<["task"%string := PyStr "segmentation"]>
  (<["modality"%string := PyStr "MRI"]>
  (<["datalist"%string := PyStr datalist_file]>
  (<["dataroot"%string := PyStr dataroot]> ∅)))).

(** Lines 211-230 as run: the GPU count is resolved from the config and
    the device count, then the overrides are computed. *)
Definition override_cell (cfg : gmap string pyval) (device_count : Z)
    (max_epochs images_per_batch n_data : Z) : result override :=
  override_param max_epochs images_per_batch n_data (num_gpus cfg device_count).

(** ** Sequences and dicts *)

(** [l[i]] on a list: a negative index counts from the end, and an index
    outside the list raises [IndexError]. *)
Definition list_getitem {A : Type} (l : list A) (i : Z) : result A :=
  let n := Z.of_nat (length l) in
  let j := if i <? 0 then i + n else i in
  if (j <? 0) || (n <=? j) then Raise IndexError
  else match l !! Z.to_nat j with
       | Some a => Ok a
       | None => Raise IndexError
       end.

(** A dict keeps its keys in insertion order: a list of bindings. *)
Definition dict (V : Type) : Type := list (string * V).

(** [list(d.keys())] *)
Definition dict_keys {V : Type} (d : dict V) : list string := map fst d.

(** [d[k]] *)
Fixpoint dict_getitem {V : Type} (d : dict V) (k : string) : result V :=
  match d with
  | [] => Raise KeyError
  | (k', v) :: d' => if String.eqb k' k then Ok v else dict_getitem d' k
  end.

(** The invariant of a dict: no key occurs twice. *)
Definition dict_wf {V : Type} (d : dict V) : Prop := NoDup (dict_keys d).

(** ** The algorithm selector (lines 196-198) *)

Section Selector.
Context {Algo : Type}.

(** The three assignments [algo_dict = history[i]],
    [algo_name = list(algo_dict.keys())[i]], [algo = algo_dict[algo_name]],
    with the same [selected_algorithm_index] in both subscripts. *)
Definition select (history : list (dict Algo)) (selected_algorithm_index : Z)
  : result (dict Algo * string * Algo) :=
  do algo_dict <- list_getitem history selected_algorithm_index ;
  do algo_name <- list_getitem (dict_keys algo_dict) selected_algorithm_index ;
  do algo <- dict_getitem algo_dict algo_name ;
  Ok (algo_dict, algo_name, algo).

End Selector.

(** ** Effects: the file system and the calls into MONAI *)

(** A call into the external library, as it appears in the run's log. *)
Inductive event : Type :=
  | EvDownloadAndExtract (url filepath output_dir : string)
  | EvDataAnalyzer (datalist dataroot output_path : string)
  | EvGetAllCaseStats
  | EvGetHistory
  | EvImportBundleAlgoHistory (output_folder : string) (only_trained : bool).

(** The state a cell runs in: the paths that exist, and the external
    calls made so far (oldest first). *)
Record world : Type := { fs : gset string; log : list event }.

(** A statement: from a world to an outcome and the world it leaves.
    The effects made before an exception is raised are kept. *)
Definition M (A : Type) : Type := world -> result A * world.

Definition ret {A : Type} (a : A) : M A := fun w => (Ok a, w).

Definition raise {A : Type} (e : exn) : M A := fun w => (Raise e, w).

Definition bindM {A B : Type} (m : M A) (k : A -> M B) : M B :=
  fun w =>
    match m w with
    | (Ok a, w') => k a w'
    | (Raise e, w') => (Raise e, w')
    end.

Notation "'run' x <- m ; k" := (bindM m (fun x => k))
  (at level 10, x name, m at level 100, k at level 200).

(** A pure expression used as a statement. *)
Definition lift {A : Type} (r : result A) : M A := fun w => (r, w).

(** An external call: logged, then its outcome and its effect on the file
    system are whatever the library does. *)
Definition call {A : Type} (ev : event)
    (f : gset string -> result A * gset string) : M A :=
  fun w =>
    let '(r, fs') := f (fs w) in
    (r, {| fs := fs'; log := log w ++ [ev] |}).

(** [os.path.exists(p)] *)
Definition os_path_exists (p : string) : M bool :=
  fun w => (Ok (bool_decide (p ∈ fs w)), w).

(** [assert b] *)
Definition assert (b : bool) : M unit :=
  if b then ret tt else raise AssertionError.

(** [try: body except Exception: handler] *)
Definition try_except_Exception {A : Type} (body handler : M A) : M A :=
  fun w =>
    match body w with
    | (Ok a, w') => (Ok a, w')
    | (Raise e, w') => if is_Exception e then handler w' else (Raise e, w')
    end.

(** The events a statement adds to the log when run in [w]. *)
Definition events_of {A : Type} (m : M A) (w : world) : list event :=
  drop (length (log w)) (log (snd (m w))).

Definition is_download (ev : event) : bool :=
  match ev with EvDownloadAndExtract _ _ _ => true | _ => false end.

Definition is_analyzer (ev : event) : bool :=
  match ev with EvDataAnalyzer _ _ _ => true | _ => false end.

Definition is_case_stats (ev : event) : bool :=
  match ev with EvGetAllCaseStats => true | _ => false end.

Definition is_import (ev : event) : bool :=
  match ev with EvImportBundleAlgoHistory _ _ => true | _ => false end.

(** How many events of a kind a log holds. *)
Definition count (p : event -> bool) (l : list event) : nat :=
  length (filter (fun ev => p ev = true) l).

(** What the library functions do is not the notebook's: each is a
    parameter, free to return, to raise and to change the file system. *)
Record externals (Algo : Type) : Type :=
  { x_download_and_extract :
      string -> string -> string -> gset string -> result unit * gset string;
    x_DataAnalyzer :
      string -> string -> string -> gset string -> result unit * gset string;
    x_get_all_case_stats : gset string -> result unit * gset string;
    x_get_history : gset string -> result (list (dict Algo)) * gset string;
    x_import_bundle_algo_history :
      string -> bool -> gset string -> result (list (dict Algo)) * gset string }.
Arguments x_download_and_extract {Algo}.
Arguments x_DataAnalyzer {Algo}.
Arguments x_get_all_case_stats {Algo}.
Arguments x_get_history {Algo}.
Arguments x_import_bundle_algo_history {Algo}.

(** [os.path.join(a, b)] for two components (POSIX). *)
Definition os_path_join (a b : string) : string :=
  if String.prefix "/" b then b
  else if String.eqb a "" then b
  else if String.eqb (String.substring (String.length a - 1) 1 a) "/" then a +:+ b
  else a +:+ "/" +:+ b.

Definition msd_task : string := "Task04_Hippocampus".

Definition resource : string :=
  "https://msd-for-monai.s3-us-west-2.amazonaws.com/" +:+ msd_task +:+ ".tar".

Section Notebook.
Context {Algo : Type} (X : externals Algo).

Definition download_and_extract (url filepath output_dir : string) : M unit :=
  call (EvDownloadAndExtract url filepath output_dir)
       (x_download_and_extract X url filepath output_dir).

(** Lines 89-90: the guarded download. *)
Definition provision (resource compressed_file root_dir dataroot : string)
  : M unit :=
  run present <- os_path_exists dataroot ;
  if negb present
  then download_and_extract resource compressed_file root_dir
  else ret tt.

(** Lines 84-90 for a given [root_dir]. *)
Definition download_cell (root_dir : string) : M unit :=
  let compressed_file := os_path_join root_dir (msd_task +:+ ".tar") in
  let dataroot := os_path_join root_dir msd_task in
  provision resource compressed_file root_dir dataroot.

(** Lines 156-158: the statistics step. *)
Definition stats_step (datalist_file dataroot datastats_file : string)
  : M unit :=
  run present <- os_path_exists datastats_file ;
  if negb present
  then
    run da <- call (EvDataAnalyzer datalist_file dataroot datastats_file)
                   (x_DataAnalyzer X datalist_file dataroot datastats_file) ;
    call EvGetAllCaseStats (x_get_all_case_stats X)
  else ret tt.

(** Lines 190-194: the history, from the generator or else from disk. *)
Definition load_history (work_dir : string) : M (list (dict Algo)) :=
  try_except_Exception
    (run history <- call EvGetHistory (x_get_history X) ;
     run ok <- assert (0 <? Z.of_nat (length history)) ;
     ret history)
    (call (EvImportBundleAlgoHistory work_dir false)
          (x_import_bundle_algo_history X work_dir false)).

(** What [bundle_generator.get_history()] returns or raises in [w]. *)
Definition mem_history (w : world) : result (list (dict Algo)) :=
  fst (x_get_history X (fs w)).

(** Lines 187-198: the history is loaded, then one algorithm selected. *)
Definition select_cell (work_dir : string) (selected_algorithm_index : Z)
  : M (dict Algo * string * Algo) :=
  run history <- load_history work_dir ;
  lift (select history selected_algorithm_index).

End Notebook.

(** ** The real value of a float

    Used only to state and prove what the float operations compute. *)

(** [2^e] as a real, for any integer [e]. *)
Definition pow2 (e : Z) : R := powerRZ 2 e.

(** The real [m * 2^e]. *)
Definition F2R (m e : Z) : R := (IZR m * pow2 e)%R.

(** Where the real [w] lies with respect to the integer [m], as recorded
    by a rounding location: on it, below, at or above the midpoint to
    [m + 1]. *)
Definition inbetween (m : Z) (l : location) (w : R) : Prop :=
  match l with
  | loc_Exact => w = IZR m
  | loc_Inexact Lt => (IZR m < w < IZR m + / 2)%R
  | loc_Inexact Eq => (w = IZR m + / 2)%R
  | loc_Inexact Gt => (IZR m + / 2 < w < IZR m + 1)%R
  end.

(** The same for a mantissa with its round and sticky bits. *)
Definition rec_inbetween (mrs : shr_record) (w : R) : Prop :=
  0 <= shr_m mrs /\ inbetween (shr_m mrs) (loc_of_shr_record mrs) w.

(** The positive normal float [m * 2^e] is a rounding of the real [V] to
    53 bits: [V] lies between two neighbours [lo * 2^eu] and
    [(lo + 1) * 2^eu], the float is one of them, and it is the upper one
    only if [V] is at or above their midpoint. *)
Definition rounds_to (V : R) (m : positive) (e : Z) : Prop :=
  2 ^ 52 <= Z.pos m < 2 ^ 53
  /\ exists lo eu : Z,
       2 ^ 52 <= lo < 2 ^ 53
       /\ eu <= e <= eu + 1
       /\ (F2R lo eu <= V < F2R (lo + 1) eu)%R
       /\ (F2R (Z.pos m) e = F2R lo eu
           \/ (F2R (Z.pos m) e = F2R (lo + 1) eu
               /\ F2R lo eu + pow2 eu / 2 <= V)%R).

(** ** Sample runs *)

(** A stand-in for the library with [nat] handles: the download creates
    the dataset directory, the analyzer writes nothing, the generator's
    history is [mem] and the disk holds one bundle. *)
Definition sample_externals (mem : result (list (dict nat))) : externals nat :=
  {| x_download_and_extract :=
       fun _ _ output_dir files =>
         (Ok tt, {[os_path_join output_dir msd_task]} ∪ files);
     x_DataAnalyzer := fun _ _ _ files => (Ok tt, files);
     x_get_all_case_stats := fun files => (Ok tt, files);
     x_get_history := fun files => (mem, files);
     x_import_bundle_algo_history :=
       fun _ _ files => (Ok [[("segresnet2d_0"%string, 0%nat)]], files) |}.

(** One bundle per entry, as the generator writes them. *)
Definition sample_history : list (dict nat) :=
  [[("segresnet2d_0"%string, 0%nat)]; [("dints_0"%string, 1%nat)]].

(** A history whose second entry binds two names. *)
Definition wide_history : list (dict nat) :=
  [[("segresnet2d_0"%string, 0%nat)];
   [("dints_0"%string, 1%nat); ("segresnet_0"%string, 2%nat)]].

(** A world in which the dataset and the statistics file are in place. *)
Definition sample_world : world :=
  {| fs := {["/data/Task04_Hippocampus"%string;
             "./hpo_nni_work_dir/datastats.yaml"%string]};
     log := [] |}.

(** A world with an empty file system. *)
Definition empty_world : world := {| fs := ∅; log := [] |}.

(** A stand-in whose analyzer writes [datastats_file], whose generator
    has no history to give and whose disk holds [disk]. *)
Definition caching_externals (datastats_file : string)
    (disk : result (list (dict nat))) : externals nat :=
  {| x_download_and_extract :=
       fun _ _ output_dir files =>
         (Ok tt, {[os_path_join output_dir msd_task]} ∪ files);
     x_DataAnalyzer := fun _ _ _ files => (Ok tt, files);
     x_get_all_case_stats := fun files => (Ok tt, {[datastats_file]} ∪ files);
     x_get_history := fun files => (Raise RuntimeError, files);
     x_import_bundle_algo_history := fun _ _ files => (disk, files) |}.

(** The empty world after a first download into [/data], and after a first
    statistics step. *)
Definition downloaded_world : world :=
  {| fs := {[os_path_join "/data" msd_task]} ∪ ∅;
     log := [EvDownloadAndExtract resource "/data/Task04_Hippocampus.tar" "/data"] |}.

Definition analyzed_world : world :=
  {| fs := {["./hpo_nni_work_dir/datastats.yaml"%string]} ∪ ∅;
     log := [EvDataAnalyzer "folds.json" "/data/Task04_Hippocampus"
               "./hpo_nni_work_dir/datastats.yaml";
             EvGetAllCaseStats] |}.

(** A float with its sign replaced. *)
Definition set_sign (s : bool) (x : PyFloat.float) : PyFloat.float :=
  match x with
  | S754_zero _ => S754_zero s
  | S754_infinity _ => S754_infinity s
  | S754_nan => S754_nan
  | S754_finite _ m e => S754_finite s m e
  end.

(** * Properties *)

(** ** Subscripts *)

Lemma list_getitem_nat {A : Type} (l : list A) (i : nat) (a : A) :
  l !! i = Some a -> list_getitem l (Z.of_nat i) = Ok a.
Proof.
  intros Hi. pose proof (lookup_lt_Some _ _ _ Hi) as Hlt.
  unfold list_getitem.
  destruct (Z.ltb_spec (Z.of_nat i) 0) as [Hneg|_]; [lia|].
  destruct (Z.ltb_spec (Z.of_nat i) 0) as [Hneg|_]; [lia|].
  destruct (Z.leb_spec (Z.of_nat (length l)) (Z.of_nat i)) as [Hge|_]; [lia|].
  cbn. rewrite Nat2Z.id, Hi. reflexivity.
Qed.

Lemma list_getitem_ge {A : Type} (l : list A) (i : Z) :
  Z.of_nat (length l) <= i -> list_getitem l i = Raise IndexError.
Proof.
  intros Hge. unfold list_getitem.
  destruct (Z.ltb_spec i 0) as [Hneg|_]; [lia|].
  destruct (Z.ltb_spec i 0) as [Hneg|_]; [lia|].
  destruct (Z.leb_spec (Z.of_nat (length l)) i) as [_|Hlt]; [|lia].
  reflexivity.
Qed.

Lemma dict_getitem_key {V : Type} (d : dict V) (k : string) :
  k ∈ dict_keys d -> exists v, dict_getitem d k = Ok v /\ (k, v) ∈ d.
Proof.
  induction d as [|[k' v'] d IH]; cbn; intros Hin.
  - inversion Hin.
  - destruct (String.eqb_spec k' k) as [->|Hne].
    + exists v'. split; [reflexivity|]. constructor.
    + apply elem_of_cons in Hin as [Heq|Hin]; [congruence|].
      destruct (IH Hin) as (v & Hv & Hvin).
      exists v. split; [exact Hv|]. constructor. exact Hvin.
Qed.

(** In a dict, the key at position [i] is bound to the value at
    position [i]. *)
Lemma dict_getitem_lookup {V : Type} (d : dict V) (i : nat) (k : string) (v : V) :
  dict_wf d -> d !! i = Some (k, v) -> dict_getitem d k = Ok v.
Proof.
  unfold dict_wf, dict_keys. revert i.
  induction d as [|[k' v'] d IH]; intros i Hwf Hi; [discriminate|].
  cbn [map fst] in Hwf. apply NoDup_cons in Hwf as [Hk' Hwf].
  cbn [dict_getitem]. destruct i as [|i]; cbn in Hi.
  - injection Hi as -> ->. rewrite String.eqb_refl. reflexivity.
  - destruct (String.eqb_spec k' k) as [->|Hne].
    + exfalso. apply Hk'. apply list_elem_of_fmap.
      exists (k, v). split; [reflexivity|].
      apply list_elem_of_lookup. exists i. exact Hi.
    + exact (IH i Hwf Hi).
Qed.

(** ** The algorithm selector *)

Section SelectorFacts.
Context {Algo : Type}.
Implicit Types (history : list (dict Algo)) (d : dict Algo).

Lemma select_short history (i : Z) :
  Z.of_nat (length history) <= i -> select history i = Raise IndexError.
Proof.
  intros Hge. unfold select. rewrite (list_getitem_ge _ _ Hge). reflexivity.
Qed.

Lemma select_at history (i : nat) d (k : string) :
  history !! i = Some d -> dict_keys d !! i = Some k ->
  exists a, select history (Z.of_nat i) = Ok (d, k, a) /\ dict_getitem d k = Ok a.
Proof.
  intros Hd Hk.
  destruct (dict_getitem_key d k) as (a & Ha & _).
  { apply list_elem_of_lookup. exists i. exact Hk. }
  exists a. split; [|exact Ha].
  unfold select.
  rewrite (list_getitem_nat _ _ _ Hd). cbn.
  rewrite (list_getitem_nat _ _ _ Hk). cbn.
  rewrite Ha. reflexivity.
Qed.

Lemma singleton_keys_short d (i : Z) :
  length d = 1%nat -> 1 <= i -> list_getitem (dict_keys d) i = Raise IndexError.
Proof.
  intros Hlen Hi. apply list_getitem_ge.
  unfold dict_keys. rewrite length_map, Hlen. lia.
Qed.

Lemma select_singleton_entry history (i : Z) d :
  1 <= i -> list_getitem history i = Ok d -> length d = 1%nat ->
  select history i = Raise IndexError.
Proof.
  intros Hi Hd Hlen. unfold select. rewrite Hd. cbn.
  rewrite (singleton_keys_short _ _ Hlen Hi). reflexivity.
Qed.

(** C2: for an index [i] that is in range of the history and of the chosen
    entry's key list, selection returns entry [i] of the history, key [i]
    of that entry and the handle bound to that key; for every index at or
    beyond the length of the history it raises [IndexError], and the cell
    lets that error through with nothing catching it. *)
Theorem select_index history (i : nat) :
  (forall d k, history !! i = Some d -> dict_keys d !! i = Some k ->
     exists a, select history (Z.of_nat i) = Ok (d, k, a)
               /\ dict_getitem d k = Ok a)
  /\ (forall j : Z, Z.of_nat (length history) <= j ->
        select history j = Raise IndexError)
  /\ (forall (X : externals Algo) (work_dir : string) (w w' : world) (j : Z),
        load_history X work_dir w = (Ok history, w') ->
        Z.of_nat (length history) <= j ->
        select_cell X work_dir j w = (Raise IndexError, w')).
Proof.
  split; [|split].
  - intros d k. apply select_at.
  - intros j. apply select_short.
  - intros X work_dir w w' j Hload Hge.
    unfold select_cell, bindM, lift. rewrite Hload.
    rewrite (select_short _ _ Hge). reflexivity.
Qed.


(** C10: when every entry of the history binds exactly one name, selection
    raises [IndexError] for every index [i >= 1]; when the history is longer
    than [i] the entry is found and it is the subscript on its key list that
    raises.  Index 0 succeeds on a non-empty history. *)
Theorem select_singletons history :
  Forall (fun d => length d = 1%nat) history ->
  (forall i : Z, 1 <= i -> select history i = Raise IndexError)
  /\ (forall i : Z, 1 <= i < Z.of_nat (length history) ->
        exists d, list_getitem history i = Ok d
                  /\ list_getitem (dict_keys d) i = Raise IndexError)
  /\ (history <> [] -> exists r, select history 0 = Ok r).
Proof.
  intros Hall. rewrite Forall_lookup in Hall.
  assert (Hentry : forall i : Z, 0 <= i < Z.of_nat (length history) ->
            exists d, list_getitem history i = Ok d /\ length d = 1%nat).
  { intros i Hi.
    destruct (lookup_lt_is_Some_2 history (Z.to_nat i)) as [d Hd]; [lia|].
    exists d. split; [|exact (Hall _ _ Hd)].
    rewrite <- (Z2Nat.id i) by lia. apply list_getitem_nat. exact Hd. }
  split; [|split].
  - intros i Hi.
    destruct (Z_lt_le_dec i (Z.of_nat (length history))) as [Hlt|Hge].
    + destruct (Hentry i) as (d & Hd & Hlen); [lia|].
      exact (select_singleton_entry _ _ _ Hi Hd Hlen).
    + apply select_short. exact Hge.
  - intros i Hi.
    destruct (Hentry i) as (d & Hd & Hlen); [lia|].
    exists d. split; [exact Hd|]. apply singleton_keys_short; [exact Hlen|lia].
  - intros Hne.
    destruct history as [|d0 history']; [congruence|].
    pose proof (Hall 0%nat d0 eq_refl) as Hlen.
    destruct d0 as [|[k a] [|? ?]]; try discriminate Hlen.
    exists ([(k, a)], k, a).
    unfold select.
    pose proof (list_getitem_nat _ 0 _ (eq_refl : (_ :: history') !! 0%nat = Some [(k, a)]))
      as Hd.
    pose proof (list_getitem_nat _ 0 _ (eq_refl : dict_keys [(k, a)] !! 0%nat = Some k))
      as Hk.
    change (Z.of_nat 0) with 0 in Hd, Hk. unfold dict in *. rewrite Hd. cbn [bind]. rewrite Hk.
    cbn [bind dict_getitem]. rewrite String.eqb_refl. reflexivity.
Qed.

End SelectorFacts.

Lemma select_wide_history :
  exists a, select wide_history 1
            = Ok ([("dints_0"%string, 1%nat); ("segresnet_0"%string, 2%nat)],
                  "segresnet_0"%string, a)
            /\ a = 2%nat.
Proof.
  destruct (proj1 (select_index wide_history 1) _ "segresnet_0"%string
              eq_refl eq_refl) as (a & Hsel & Ha).
  exists a. split; [exact Hsel|].
  vm_compute in Ha. congruence.
Defined.

Lemma select_sample_history_1 : select sample_history 1 = Raise IndexError.
Proof.
  apply (select_singletons sample_history).
  - repeat constructor.
  - lia.
Defined.

(** A negative index counts from the end in both subscripts: on entries
    with one name each, [-1] selects the last bundle. *)
Example select_sample_history_last :
  select sample_history (-1) = Ok ([("dints_0"%string, 1%nat)], "dints_0"%string, 1%nat).
Proof. reflexivity. Qed.

(** ** The guarded steps *)

Section NotebookFacts.
Context {Algo : Type} (X : externals Algo).

Lemma events_of_unchanged {A : Type} (m : M A) (w : world) (r : result A) :
  m w = (r, w) -> events_of m w = [].
Proof.
  intros Hm. unfold events_of. rewrite Hm. cbn. apply drop_all.
Qed.

Lemma provision_present (resource compressed_file root_dir dataroot : string)
    (w : world) :
  dataroot ∈ fs w ->
  provision X resource compressed_file root_dir dataroot w = (Ok tt, w).
Proof.
  intros Hin. unfold provision, bindM, os_path_exists.
  rewrite bool_decide_eq_true_2 by exact Hin. reflexivity.
Qed.

Lemma provision_absent (resource compressed_file root_dir dataroot : string)
    (w : world) :
  dataroot ∉ fs w ->
  events_of (provision X resource compressed_file root_dir dataroot) w
  = [EvDownloadAndExtract resource compressed_file root_dir].
Proof.
  intros Hnin. unfold events_of, provision, bindM, os_path_exists.
  rewrite bool_decide_eq_false_2 by exact Hnin. cbn.
  unfold download_and_extract, call.
  destruct (x_download_and_extract X _ _ _ (fs w)) as [r fs']. cbn.
  apply drop_app_length.
Qed.

(** C9: when the expected path exists, the provisioning step returns at
    once and leaves the world as it was: no call is logged and the file
    system is the same.  A download is logged only from a world in which
    the path was absent, and then exactly one, with the arguments of the
    cell. *)
Theorem provision_noop (resource compressed_file root_dir dataroot : string)
    (w : world) :
  (dataroot ∈ fs w ->
     provision X resource compressed_file root_dir dataroot w = (Ok tt, w)
     /\ events_of (provision X resource compressed_file root_dir dataroot) w = [])
  /\ (count is_download
        (events_of (provision X resource compressed_file root_dir dataroot) w)
      <> 0%nat -> dataroot ∉ fs w)
  /\ (dataroot ∉ fs w ->
        events_of (provision X resource compressed_file root_dir dataroot) w
        = [EvDownloadAndExtract resource compressed_file root_dir]).
Proof.
  split; [|split].
  - intros Hin.
    pose proof (provision_present resource compressed_file root_dir _ _ Hin) as Hp.
    split; [exact Hp|]. exact (events_of_unchanged _ _ _ Hp).
  - intros Hcount Hin. apply Hcount.
    pose proof (provision_present resource compressed_file root_dir _ _ Hin) as Hp.
    rewrite (events_of_unchanged _ _ _ Hp). reflexivity.
  - apply provision_absent.
Qed.

Lemma stats_step_present (datalist_file dataroot datastats_file : string)
    (w : world) :
  datastats_file ∈ fs w ->
  stats_step X datalist_file dataroot datastats_file w = (Ok tt, w).
Proof.
  intros Hin. unfold stats_step, bindM, os_path_exists.
  rewrite bool_decide_eq_true_2 by exact Hin. reflexivity.
Qed.

Lemma stats_step_absent (datalist_file dataroot datastats_file : string)
    (w : world) :
  datastats_file ∉ fs w ->
  let evs := events_of (stats_step X datalist_file dataroot datastats_file) w in
  evs = [EvDataAnalyzer datalist_file dataroot datastats_file]
  \/ evs = [EvDataAnalyzer datalist_file dataroot datastats_file;
            EvGetAllCaseStats].
Proof.
  intros Hnin. unfold events_of, stats_step, bindM, os_path_exists.
  rewrite bool_decide_eq_false_2 by exact Hnin. cbn.
  unfold call.
  destruct (x_DataAnalyzer X _ _ _ (fs w)) as [[[]|e] fs1]; cbn.
  - destruct (x_get_all_case_stats X fs1) as [r fs2]. cbn. right.
    rewrite <- app_assoc. apply drop_app_length.
  - left. apply drop_app_length.
Qed.

Lemma download_cell_present (root_dir : string) (w : world) :
  os_path_join root_dir msd_task ∈ fs w ->
  download_cell X root_dir w = (Ok tt, w).
Proof. apply provision_present. Qed.

Lemma stats_step_run (datalist_file dataroot datastats_file : string)
    (w : world) :
  datastats_file ∉ fs w ->
  stats_step X datalist_file dataroot datastats_file w
  = match x_DataAnalyzer X datalist_file dataroot datastats_file (fs w) with
    | (Ok _, fs1) =>
        (fst (x_get_all_case_stats X fs1),
         {| fs := snd (x_get_all_case_stats X fs1);
            log := log w ++ [EvDataAnalyzer datalist_file dataroot datastats_file;
                             EvGetAllCaseStats] |})
    | (Raise e, fs1) =>
        (Raise e,
         {| fs := fs1;
            log := log w ++ [EvDataAnalyzer datalist_file dataroot datastats_file] |})
    end.
Proof.
  intros Hnin. unfold stats_step, bindM, os_path_exists.
  rewrite bool_decide_eq_false_2 by exact Hnin. cbn.
  unfold call.
  destruct (x_DataAnalyzer X _ _ _ (fs w)) as [[[]|e] fs1]; cbn.
  - destruct (x_get_all_case_stats X fs1) as [r fs2]. cbn.
    rewrite <- app_assoc. reflexivity.
  - reflexivity.
Qed.

(** C7: the statistics step runs the analyzer exactly once when the cache
    file is absent and not at all when it is present; the presence of that
    file alone decides, whatever the other arguments, the log and the rest
    of the file system are.  With the file present the step changes
    nothing.  With the file absent the analyzer is constructed with the
    cell's three arguments and, when the constructor returns, its
    [get_all_case_stats] is called: these two calls, in this order, are all
    the step does, and the step ends as that call ends.  When the
    constructor raises, the construction is the only call and its exception
    is the step's. *)
Theorem stats_step_once (datalist_file dataroot datastats_file : string)
    (w : world) :
  count is_analyzer
    (events_of (stats_step X datalist_file dataroot datastats_file) w)
  = (if bool_decide (datastats_file ∈ fs w) then 0 else 1)%nat
  /\ (count is_case_stats
        (events_of (stats_step X datalist_file dataroot datastats_file) w)
      <= (if bool_decide (datastats_file ∈ fs w) then 0 else 1))%nat
  /\ (datastats_file ∈ fs w ->
        stats_step X datalist_file dataroot datastats_file w = (Ok tt, w))
  /\ (datastats_file ∉ fs w ->
      forall (u : unit) (fs1 : gset string),
        x_DataAnalyzer X datalist_file dataroot datastats_file (fs w)
        = (Ok u, fs1) ->
        events_of (stats_step X datalist_file dataroot datastats_file) w
        = [EvDataAnalyzer datalist_file dataroot datastats_file;
           EvGetAllCaseStats]
        /\ stats_step X datalist_file dataroot datastats_file w
           = (fst (x_get_all_case_stats X fs1),
              {| fs := snd (x_get_all_case_stats X fs1);
                 log := log w
                        ++ [EvDataAnalyzer datalist_file dataroot datastats_file;
                            EvGetAllCaseStats] |}))
  /\ (datastats_file ∉ fs w ->
      forall (e : exn) (fs1 : gset string),
        x_DataAnalyzer X datalist_file dataroot datastats_file (fs w)
        = (Raise e, fs1) ->
        events_of (stats_step X datalist_file dataroot datastats_file) w
        = [EvDataAnalyzer datalist_file dataroot datastats_file]
        /\ stats_step X datalist_file dataroot datastats_file w
           = (Raise e,
              {| fs := fs1;
                 log := log w
                        ++ [EvDataAnalyzer datalist_file dataroot
                              datastats_file] |})).
Proof.
  destruct (decide (datastats_file ∈ fs w)) as [Hin|Hnin].
  - rewrite bool_decide_eq_true_2 by exact Hin.
    pose proof (stats_step_present datalist_file dataroot _ _ Hin) as Hp.
    rewrite (events_of_unchanged _ _ _ Hp).
    split; [reflexivity|]. split; [reflexivity|]. split; [intros _; exact Hp|].
    split; intros Hnin; contradiction.
  - rewrite bool_decide_eq_false_2 by exact Hnin.
    pose proof (stats_step_run datalist_file dataroot _ _ Hnin) as Hrun.
    split; [|split; [|split; [|split]]].
    + destruct (stats_step_absent datalist_file dataroot _ _ Hnin) as [-> | ->];
        reflexivity.
    + destruct (stats_step_absent datalist_file dataroot _ _ Hnin) as [-> | ->];
        compute; lia.
    + intros Hin. contradiction.
    + intros _ u fs1 Hda. rewrite Hda in Hrun.
      split; [|exact Hrun].
      unfold events_of. rewrite Hrun. cbn. apply drop_app_length.
    + intros _ e fs1 Hda. rewrite Hda in Hrun.
      split; [|exact Hrun].
      unfold events_of. rewrite Hrun. cbn. apply drop_app_length.
Qed.

Lemma load_history_events (work_dir : string) (w : world) :
  let evs := events_of (load_history X work_dir) w in
  match mem_history X w with
  | Ok [] => evs = [EvGetHistory; EvImportBundleAlgoHistory work_dir false]
  | Ok h => evs = [EvGetHistory] /\ fst (load_history X work_dir w) = Ok h
  | Raise e =>
      if is_Exception e
      then evs = [EvGetHistory; EvImportBundleAlgoHistory work_dir false]
      else evs = [EvGetHistory] /\ fst (load_history X work_dir w) = Raise e
  end.
Proof.
  unfold mem_history, events_of, load_history, try_except_Exception, bindM, call.
  destruct (x_get_history X (fs w)) as [[h|e] fs1]; cbn.
  - unfold assert, ret, raise.
    destruct h as [|d h];
      match goal with
      | |- context [0 <? ?n] => destruct (Z.ltb_spec 0 n) as [Hlt|Hge]
      end; cbn [length] in *; try lia; cbn.
    + destruct (x_import_bundle_algo_history X work_dir false fs1) as [r fs2]. cbn.
      rewrite <- app_assoc. apply drop_app_length.
    + split; [apply drop_app_length|reflexivity].
  - destruct (is_Exception e).
    + destruct (x_import_bundle_algo_history X work_dir false fs1) as [r fs2]. cbn.
      rewrite <- app_assoc. apply drop_app_length.
    + cbn. split; [apply drop_app_length|reflexivity].
Qed.

(** C3: the history is re-read from disk exactly when reading it from the
    generator raises an exception (an instance of [Exception], the class
    the handler names) or returns an empty list; a non-empty list read from
    the generator is the history, unchanged, and the disk is not read. *)
Theorem load_history_fallback (work_dir : string) (w : world) :
  (count is_import (events_of (load_history X work_dir) w) = 1%nat
   <-> (exists e, mem_history X w = Raise e /\ is_Exception e = true)
       \/ mem_history X w = Ok [])
  /\ (count is_import (events_of (load_history X work_dir) w) = 0%nat
      \/ count is_import (events_of (load_history X work_dir) w) = 1%nat)
  /\ (forall h, mem_history X w = Ok h -> h <> [] ->
        fst (load_history X work_dir w) = Ok h
        /\ events_of (load_history X work_dir) w = [EvGetHistory]).
Proof.
  pose proof (load_history_events work_dir w) as Hev. cbv zeta in Hev.
  destruct (mem_history X w) as [[|d h]|e] eqn:Hmem.
  - rewrite Hev. split; [|split].
    + split; [intros _; right; reflexivity|reflexivity].
    + right. reflexivity.
    + intros h [= <-] Hne. congruence.
  - destruct Hev as [Hev Hres]. rewrite Hev. split; [|split].
    + split; [discriminate|].
      intros [(e & He & _)|He]; discriminate He.
    + left. reflexivity.
    + intros h' [= <-] _. split; [exact Hres|reflexivity].
  - destruct (is_Exception e) eqn:He.
    + rewrite Hev. split; [|split].
      * split; [intros _; left; exists e; split; [reflexivity|exact He]|reflexivity].
      * right. reflexivity.
      * intros h Hh. discriminate Hh.
    + destruct Hev as [Hev Hres]. rewrite Hev. split; [|split].
      * split; [discriminate|].
        intros [(e' & [= <-] & He')|He']; [congruence|discriminate He'].
      * left. reflexivity.
      * intros h Hh. discriminate Hh.
Qed.

End NotebookFacts.

Lemma provision_sample_world :
  provision (sample_externals (Ok [])) resource
    "/data/Task04_Hippocampus.tar" "/data" "/data/Task04_Hippocampus"
    sample_world
  = (Ok tt, sample_world).
Proof.
  apply (provision_noop (sample_externals (Ok [])) resource
           "/data/Task04_Hippocampus.tar" "/data" "/data/Task04_Hippocampus"
           sample_world).
  vm_compute. set_solver.
Defined.

Lemma stats_step_once_worlds :
  stats_step (sample_externals (Ok [])) "folds.json" "/data/Task04_Hippocampus"
    "./hpo_nni_work_dir/datastats.yaml" sample_world
  = (Ok tt, sample_world)
  /\ events_of
       (stats_step (sample_externals (Ok [])) "folds.json"
          "/data/Task04_Hippocampus" "./hpo_nni_work_dir/datastats.yaml")
       empty_world
     = [EvDataAnalyzer "folds.json" "/data/Task04_Hippocampus"
          "./hpo_nni_work_dir/datastats.yaml";
        EvGetAllCaseStats].
Proof.
  split.
  - apply (stats_step_once (sample_externals (Ok [])) "folds.json"
             "/data/Task04_Hippocampus" "./hpo_nni_work_dir/datastats.yaml"
             sample_world).
    vm_compute. set_solver.
  - destruct (stats_step_once (sample_externals (Ok [])) "folds.json"
                "/data/Task04_Hippocampus" "./hpo_nni_work_dir/datastats.yaml"
                empty_world) as (_ & _ & _ & Habsent & _).
    apply (Habsent (not_elem_of_empty _) tt ∅ eq_refl).
Defined.

Lemma load_history_empty_memory :
  count is_import
    (events_of (load_history (sample_externals (Ok [])) "./hpo_nni_work_dir")
       empty_world)
  = 1%nat.
Proof.
  apply (load_history_fallback (sample_externals (Ok [])) "./hpo_nni_work_dir"
           empty_world).
  right. reflexivity.
Defined.

(** ** The epoch safeguard and the GPU count *)

Lemma py_max_spec (a b : Z) : py_max a b = Z.max a b.
Proof.
  unfold py_max. destruct (Z.ltb_spec a b); lia.
Qed.

Lemma override_of_Ok (num_epoch images_per_batch n_data gpus : Z) (o : override) :
  override_of num_epoch images_per_batch n_data gpus = Ok o ->
  num_epochs o = num_epoch
  /\ num_images_per_batch o = images_per_batch
  /\ n_iter num_epoch n_data images_per_batch gpus = Ok (num_iterations o)
  /\ n_iter_val (num_iterations o) = Ok (num_iterations_per_validation o)
  /\ num_warmup_iterations o = num_iterations_per_validation o.
Proof.
  unfold override_of.
  destruct (n_iter num_epoch n_data images_per_batch gpus) as [n|e]; cbn;
    [|discriminate].
  destruct (n_iter_val n) as [v|e] eqn:Hv; cbn; [|discriminate].
  intros [= <-]. cbn. repeat split; auto.
Qed.

(** C5: whatever epoch count is supplied, the count used is the larger of
    it and 2: it is the [num_epochs] entry of the overrides and the count
    that enters the iteration formula.  A supplied 1 gives the overrides
    of a supplied 2. *)
Theorem max_epochs_clamped (max_epochs images_per_batch n_data gpus : Z) :
  safeguard max_epochs = Z.max max_epochs 2
  /\ override_param max_epochs images_per_batch n_data gpus
     = override_of (Z.max max_epochs 2) images_per_batch n_data gpus
  /\ (forall o, override_param max_epochs images_per_batch n_data gpus = Ok o ->
        num_epochs o = Z.max max_epochs 2
        /\ n_iter (Z.max max_epochs 2) n_data images_per_batch gpus
           = Ok (num_iterations o))
  /\ safeguard 1 = 2
  /\ override_param 1 images_per_batch n_data gpus
     = override_of 2 images_per_batch n_data gpus.
Proof.
  assert (Hs : safeguard max_epochs = Z.max max_epochs 2)
    by apply py_max_spec.
  split; [exact Hs|]. split; [|split; [|split]].
  - unfold override_param. rewrite Hs. reflexivity.
  - intros o Ho. unfold override_param in Ho. rewrite Hs in Ho.
    destruct (override_of_Ok _ _ _ _ _ Ho) as (He & _ & Hn & _).
    split; assumption.
  - reflexivity.
  - reflexivity.
Qed.

(** C6: the GPU count is 1 when the config holds a ["multigpu"] entry whose
    truth value is false (in particular the value [False]), whatever the
    device count; when the entry is absent or its truth value is true, the
    GPU count is the device count. *)
Theorem num_gpus_resolution (cfg : gmap string pyval) (device_count : Z) :
  (cfg !! "multigpu"%string = Some (PyBool false) -> num_gpus cfg device_count = 1)
  /\ (forall flag, cfg !! "multigpu"%string = Some flag -> truthy flag = false ->
        num_gpus cfg device_count = 1)
  /\ (cfg !! "multigpu"%string = None -> num_gpus cfg device_count = device_count)
  /\ (forall flag, cfg !! "multigpu"%string = Some flag -> truthy flag = true ->
        num_gpus cfg device_count = device_count).
Proof.
  unfold num_gpus. repeat split.
  - intros ->. reflexivity.
  - intros flag -> ->. reflexivity.
  - intros ->. reflexivity.
  - intros flag -> ->. reflexivity.
Qed.

(** The config written by the notebook has no ["multigpu"] entry, so the
    notebook as it stands always takes the device count. *)
Lemma num_gpus_notebook (task datalist_file dataroot : string) (device_count : Z) :
  num_gpus (input_cfg task datalist_file dataroot) device_count = device_count.
Proof.
  unfold num_gpus, input_cfg.
  rewrite !lookup_insert_ne by discriminate. rewrite lookup_empty. reflexivity.
Qed.

(** Any false truth value disables multi-GPU use, not only [False]. *)
Example num_gpus_flag_zero :
  num_gpus (<["multigpu"%string := PyInt 0]> ∅) 8 = 1.
Proof. reflexivity. Qed.

Lemma max_epochs_clamped_1 :
  num_epochs notebook_override = Z.max 1 2
  /\ n_iter (Z.max 1 2) 24 2 1 = Ok (num_iterations notebook_override).
Proof.
  apply (max_epochs_clamped 1 2 24 1). vm_compute. reflexivity.
Defined.

Lemma num_gpus_flag_false :
  num_gpus (<["multigpu"%string := PyBool false]> ∅) 8 = 1.
Proof.
  apply (num_gpus_resolution (<["multigpu"%string := PyBool false]> ∅) 8).
  apply lookup_insert_eq.
Defined.

(** ** Float arithmetic: what a rounded quotient is

    [SpecFloat] computes on mantissas and exponents.  The lemmas below read
    those computations as statements on reals: a division followed by
    rounding returns one of the two 53-bit neighbours of the exact
    quotient, and the upper one only from the midpoint on. *)

(** *** Powers of two *)

Section Pow2.
Local Open Scope R_scope.

Lemma pow2_pos (e : Z) : 0 < pow2 e.
Proof. apply powerRZ_lt. lra. Qed.

Lemma pow2_add (a b : Z) : pow2 (a + b) = pow2 a * pow2 b.
Proof. apply powerRZ_add. lra. Qed.

Lemma pow2_0 : pow2 0 = 1.
Proof. reflexivity. Qed.

Lemma pow2_1 : pow2 1 = 2.
Proof. exact (powerRZ_1 2). Qed.

Lemma pow2_succ (e : Z) : pow2 (e + 1) = 2 * pow2 e.
Proof. rewrite pow2_add, pow2_1. lra. Qed.

Lemma pow2_opp (e : Z) : pow2 (- e) = / pow2 e.
Proof. apply powerRZ_neg'. Qed.

Lemma pow2_m1 : pow2 (-1) = / 2.
Proof. change (-1)%Z with (Z.opp 1). rewrite pow2_opp, pow2_1. reflexivity. Qed.

Lemma pow2_IZR (e : Z) : (0 <= e)%Z -> pow2 e = IZR (2 ^ e).
Proof.
  intros He. pattern e. apply natlike_ind; [reflexivity| |exact He].
  intros x Hx IH. rewrite Z.pow_succ_r by exact Hx.
  rewrite mult_IZR, <- IH. unfold Z.succ. rewrite pow2_succ. reflexivity.
Qed.

Lemma pow2_ge_1 (e : Z) : (0 <= e)%Z -> 1 <= pow2 e.
Proof.
  intros He. rewrite pow2_IZR by exact He. apply IZR_le.
  pose proof (Z.pow_pos_nonneg 2 e). lia.
Qed.

Lemma pow2_le (a b : Z) : (a <= b)%Z -> pow2 a <= pow2 b.
Proof.
  intros Hab. replace b with (a + (b - a))%Z by lia. rewrite pow2_add.
  pose proof (pow2_pos a). pose proof (pow2_ge_1 (b - a) ltac:(lia)). nra.
Qed.

Lemma pow2_lt (a b : Z) : (a < b)%Z -> pow2 a < pow2 b.
Proof.
  intros Hab. replace b with ((a + 1) + (b - a - 1))%Z by lia.
  rewrite pow2_add, pow2_succ.
  pose proof (pow2_pos a). pose proof (pow2_ge_1 (b - a - 1) ltac:(lia)). nra.
Qed.

Lemma pow2_lt_inv (a b : Z) : pow2 a < pow2 b -> (a < b)%Z.
Proof.
  intros Hlt. destruct (Z_lt_le_dec a b) as [H|H]; [exact H|].
  pose proof (pow2_le b a H). lra.
Qed.

End Pow2.

(** *** The number of binary digits *)

Lemma digits2_pos_size (p : positive) : digits2_pos p = Pos.size p.
Proof. induction p; cbn; congruence. Qed.

Lemma Zdigits2_bounds (m : Z) :
  0 < m -> 2 ^ (Zdigits2 m - 1) <= m < 2 ^ Zdigits2 m.
Proof.
  destruct m as [|p|p]; try lia. intros _. cbn [Zdigits2].
  rewrite digits2_pos_size.
  pose proof (Pos.size_gt p) as Hgt. pose proof (Pos.size_le p) as Hle.
  split.
  - assert (2 ^ Z.pos (Pos.size p) <= 2 * Z.pos p).
    { rewrite <- Pos2Z.inj_pow. change (2 * Z.pos p) with (Z.pos p~0). lia. }
    replace (Z.pos (Pos.size p)) with (Z.succ (Z.pos (Pos.size p) - 1)) in H by lia.
    rewrite Z.pow_succ_r in H by lia. lia.
  - rewrite <- Pos2Z.inj_pow. lia.
Qed.

Lemma Zdigits2_unique (m d : Z) :
  2 ^ (d - 1) <= m < 2 ^ d -> 0 < m -> Zdigits2 m = d.
Proof.
  intros Hd Hm. pose proof (Zdigits2_bounds m Hm) as Hb.
  assert (Hpos : 0 < Zdigits2 m) by (destruct m; cbn; lia).
  destruct (Z_lt_le_dec d 1) as [Hd1|Hd1].
  { assert (2 ^ d <= 1).
    { destruct (Z_lt_le_dec d 0); [rewrite Z.pow_neg_r; lia|].
      replace d with 0 by lia. cbn. lia. }
    lia. }
  destruct (Z.lt_trichotomy (Zdigits2 m) d) as [H|[H|H]]; [|exact H|].
  - assert (2 ^ Zdigits2 m <= 2 ^ (d - 1)) by (apply Z.pow_le_mono_r; lia). lia.
  - assert (2 ^ d <= 2 ^ (Zdigits2 m - 1)) by (apply Z.pow_le_mono_r; lia). lia.
Qed.

(** *** Shifting right

    A mantissa with its round and sticky bits stands for a real; each
    shift halves it. *)

Section Rounding.
Local Open Scope R_scope.

Lemma inbetween_bounds (m : Z) (l : location) (w : R) :
  inbetween m l w -> IZR m <= w < IZR m + 1.
Proof. destruct l as [|[]]; cbn; lra. Qed.

Lemma IZR_xO (p : positive) : IZR (Z.pos p~0) = 2 * IZR (Z.pos p).
Proof. rewrite Pos2Z.inj_xO, mult_IZR. reflexivity. Qed.

Lemma IZR_xI (p : positive) : IZR (Z.pos p~1) = 2 * IZR (Z.pos p) + 1.
Proof. rewrite Pos2Z.inj_xI, plus_IZR, mult_IZR. reflexivity. Qed.

Lemma shr_1_inbetween (mrs : shr_record) (w : R) :
  rec_inbetween mrs w -> rec_inbetween (shr_1 mrs) (w / 2).
Proof.
  destruct mrs as [m r s]. unfold rec_inbetween. cbn [shr_m].
  intros [Hm Hw].
  destruct m as [|[p|p|]|p]; try lia.
  - destruct r, s; cbn [shr_1 shr_m loc_of_shr_record inbetween orb] in Hw |- *;
      (split; [lia|]); lra.
  - pose proof (IZR_xI p) as Hp.
    destruct r, s; cbn [shr_1 shr_m loc_of_shr_record inbetween orb] in Hw |- *;
      (split; [lia|]); lra.
  - pose proof (IZR_xO p) as Hp.
    destruct r, s; cbn [shr_1 shr_m loc_of_shr_record inbetween orb] in Hw |- *;
      (split; [lia|]); lra.
  - destruct r, s; cbn [shr_1 shr_m loc_of_shr_record inbetween orb] in Hw |- *;
      (split; [lia|]); lra.
Qed.

Lemma iter_pos_shr_1_inbetween (p : positive) (mrs : shr_record) (w : R) :
  rec_inbetween mrs w ->
  rec_inbetween (SpecFloat.iter_pos shr_1 p mrs) (w * pow2 (- Z.pos p)).
Proof.
  revert mrs w. induction p as [p IH|p IH|]; intros mrs w Hw; cbn [SpecFloat.iter_pos].
  - apply shr_1_inbetween, IH, IH in Hw.
    replace (w * pow2 (- Z.pos p~1))
      with (w / 2 * pow2 (- Z.pos p) * pow2 (- Z.pos p)); [exact Hw|].
    replace (- Z.pos p~1)%Z with (- Z.pos p + - Z.pos p + - 1)%Z by lia.
    rewrite !pow2_add, pow2_m1. lra.
  - apply IH, IH in Hw.
    replace (w * pow2 (- Z.pos p~0))
      with (w * pow2 (- Z.pos p) * pow2 (- Z.pos p)); [exact Hw|].
    replace (- Z.pos p~0)%Z with (- Z.pos p + - Z.pos p)%Z by lia.
    rewrite !pow2_add. lra.
  - apply shr_1_inbetween in Hw.
    change (- Z.pos 1)%Z with (-1)%Z. rewrite pow2_m1. exact Hw.
Qed.

Lemma shr_inbetween (mrs : shr_record) (e n : Z) (w : R) :
  rec_inbetween mrs w ->
  rec_inbetween (fst (shr mrs e n)) (w * pow2 (- Z.max 0 n))
  /\ snd (shr mrs e n) = (e + Z.max 0 n)%Z.
Proof.
  intros Hw. destruct n as [|p|p]; cbn [shr fst snd].
  - rewrite Z.max_id, Z.opp_0, pow2_0, Rmult_1_r.
    split; [exact Hw|lia].
  - rewrite Z.max_r by lia. split; [|reflexivity].
    apply iter_pos_shr_1_inbetween. exact Hw.
  - rewrite Z.max_l by lia. rewrite Z.opp_0, pow2_0, Rmult_1_r.
    split; [exact Hw|lia].
Qed.

Lemma rec_inbetween_of_loc (m : Z) (l : location) (w : R) :
  (0 <= m)%Z -> inbetween m l w -> rec_inbetween (shr_record_of_loc m l) w.
Proof.
  intros Hm Hw. unfold rec_inbetween. destruct l as [|[]]; cbn; auto.
Qed.

End Rounding.

Lemma fexp_normal (e : Z) : -1021 <= e -> fexp PyFloat.prec PyFloat.emax e = e - 53.
Proof. unfold fexp, SpecFloat.emin, PyFloat.prec, PyFloat.emax. lia. Qed.

(** *** Rounding to nearest, ties to even, in the normal range *)

Section RoundAux.
Local Open Scope R_scope.

Lemma round_nearest_even_cases (lo : Z) (l : location) (w : R) :
  inbetween lo l w ->
  round_nearest_even lo l = lo
  \/ (round_nearest_even lo l = (lo + 1)%Z /\ IZR lo + / 2 <= w).
Proof.
  destruct l as [|[]]; cbn; intros Hw.
  - left. reflexivity.
  - destruct (Z.even lo); [left; reflexivity|right; split; [reflexivity|lra]].
  - left. reflexivity.
  - right. split; [reflexivity|lra].
Qed.

Lemma shr_fexp_canonical (m e : Z) :
  (2 ^ 52 <= m < 2 ^ 53)%Z -> (-1021 <= 53 + e)%Z ->
  shr_fexp PyFloat.prec PyFloat.emax m e loc_Exact = (shr_record_of_loc m loc_Exact, e).
Proof.
  intros Hm He. unfold shr_fexp.
  rewrite (Zdigits2_unique m 53) by (change (53 - 1)%Z with 52%Z; lia).
  rewrite fexp_normal by lia.
  replace (53 + e - 53 - e)%Z with 0%Z by lia. reflexivity.
Qed.

Lemma shr_fexp_carry (e : Z) :
  (-1021 <= 53 + e)%Z ->
  shr_fexp PyFloat.prec PyFloat.emax (2 ^ 53) e loc_Exact
  = (shr_record_of_loc (2 ^ 52) loc_Exact, (e + 1)%Z).
Proof.
  intros He. unfold shr_fexp.
  change (Zdigits2 (2 ^ 53)) with 54%Z.
  rewrite fexp_normal by lia.
  replace (54 + e - 53 - e)%Z with 1%Z by lia. reflexivity.
Qed.

(** A mantissa of at least 53 bits that stands for [w] is rounded to a
    normal float next to [w * 2^ex]. *)
Lemma binary_round_aux_normal (mx ex : Z) (lx : location) (w : R) :
  (0 < mx)%Z -> inbetween mx lx w ->
  (53 <= Zdigits2 mx)%Z ->
  (-1021 <= Zdigits2 mx + ex <= 1023)%Z ->
  exists (m : positive) (e lo : Z),
    binary_round_aux PyFloat.prec PyFloat.emax false mx ex lx = S754_finite false m e
    /\ (2 ^ 52 <= Z.pos m < 2 ^ 53)%Z
    /\ (2 ^ 52 <= lo < 2 ^ 53)%Z
    /\ (Zdigits2 mx + ex - 53 <= e <= Zdigits2 mx + ex - 52)%Z
    /\ F2R lo (Zdigits2 mx + ex - 53) <= w * pow2 ex
       < F2R (lo + 1) (Zdigits2 mx + ex - 53)
    /\ (F2R (Z.pos m) e = F2R lo (Zdigits2 mx + ex - 53)
        \/ (F2R (Z.pos m) e = F2R (lo + 1) (Zdigits2 mx + ex - 53)
            /\ F2R lo (Zdigits2 mx + ex - 53)
               + pow2 (Zdigits2 mx + ex - 53) / 2 <= w * pow2 ex)).
Proof.
  intros Hmx Hw Hd Hrange.
  pose proof (Zdigits2_bounds mx Hmx) as Hb.
  set (d := Zdigits2 mx) in *. set (eu := (d + ex - 53)%Z).
  unfold binary_round_aux. unfold shr_fexp at 1. fold d.
  rewrite fexp_normal by lia.
  destruct (shr_inbetween (shr_record_of_loc mx lx) ex (d + ex - 53 - ex) w)
    as [H1 H2].
  { apply rec_inbetween_of_loc; [lia|exact Hw]. }
  destruct (shr (shr_record_of_loc mx lx) ex (d + ex - 53 - ex)) as [mrs' e'].
  cbn [fst snd] in H1, H2.
  assert (Hmax : Z.max 0 (d + ex - 53 - ex) = (d - 53)%Z) by lia.
  rewrite Hmax in H1, H2. clear Hmax.
  subst e'. replace (ex + (d - 53))%Z with eu by (unfold eu; lia).
  destruct H1 as [Hlo0 Hin].
  set (lo := shr_m mrs') in *. set (w1 := w * pow2 (- (d - 53))) in *.
  pose proof (inbetween_bounds _ _ _ Hin) as Hlo.
  pose proof (inbetween_bounds _ _ _ Hw) as Hmxw.
  (* the shifted mantissa has 53 bits *)
  assert (Hw1 : pow2 52 <= w1 < pow2 53).
  { unfold w1.
    assert (Hlow : pow2 (d - 1) <= w).
    { rewrite pow2_IZR by lia. apply Rle_trans with (IZR mx); [apply IZR_le; lia|lra]. }
    assert (Hhigh : w < pow2 d).
    { rewrite pow2_IZR by lia.
      apply Rlt_le_trans with (IZR mx + 1); [lra|].
      rewrite <- plus_IZR. apply IZR_le. lia. }
    assert (H52 : pow2 52 = pow2 (d - 1) * pow2 (- (d - 53)))
      by (rewrite <- pow2_add; f_equal; lia).
    assert (H53 : pow2 53 = pow2 d * pow2 (- (d - 53)))
      by (rewrite <- pow2_add; f_equal; lia).
    rewrite H52, H53. pose proof (pow2_pos (- (d - 53))). nra. }
  assert (Hlo53 : (2 ^ 52 <= lo < 2 ^ 53)%Z).
  { rewrite !pow2_IZR in Hw1 by lia. split.
    - assert (IZR (2 ^ 52) < IZR (lo + 1)) by (rewrite plus_IZR; lra).
      apply lt_IZR in H. lia.
    - apply lt_IZR. lra. }
  (* the value in units of [pow2 eu] *)
  assert (HV : w * pow2 ex = w1 * pow2 eu).
  { unfold w1. replace ex with (- (d - 53) + eu)%Z at 1 by (unfold eu; lia).
    rewrite pow2_add. lra. }
  pose proof (pow2_pos eu) as Hu.
  assert (Hbr : F2R lo eu <= w * pow2 ex < F2R (lo + 1) eu).
  { unfold F2R. rewrite HV, plus_IZR. nra. }
  destruct (round_nearest_even_cases _ _ _ Hin) as [Hr|[Hr Hhalf]]; rewrite Hr.
  - rewrite shr_fexp_canonical by (fold eu; unfold eu; lia).
    cbn [shr_record_of_loc shr_m].
    destruct lo as [|m|m] eqn:Elo; try lia.
    replace (eu <=? PyFloat.emax - PyFloat.prec)%Z with true
      by (symmetry; apply Z.leb_le; unfold PyFloat.emax, PyFloat.prec, eu; lia).
    exists m, eu, (Z.pos m).
    split; [reflexivity|]. split; [lia|]. split; [lia|].
    split; [unfold eu; lia|]. split; [exact Hbr|].
    left. reflexivity.
  - destruct (Z.eq_dec (lo + 1)%Z (2 ^ 53)%Z) as [Hc|Hc].
    + rewrite Hc, shr_fexp_carry by (unfold eu; lia).
      cbn [shr_record_of_loc shr_m].
      change (2 ^ 52)%Z with (Z.pos 4503599627370496).
      replace (eu + 1 <=? PyFloat.emax - PyFloat.prec)%Z with true
        by (symmetry; apply Z.leb_le; unfold PyFloat.emax, PyFloat.prec, eu; lia).
      exists 4503599627370496%positive, (eu + 1)%Z, lo.
      split; [reflexivity|]. split; [lia|]. split; [lia|].
      split; [unfold eu; lia|]. split; [exact Hbr|].
      right. split.
      * rewrite Hc. unfold F2R. rewrite pow2_succ.
        change (2 ^ 53)%Z with 9007199254740992%Z. lra.
      * unfold F2R. rewrite HV. nra.
    + rewrite shr_fexp_canonical by (unfold eu; lia).
      cbn [shr_record_of_loc shr_m].
      destruct (lo + 1)%Z as [|m|m] eqn:Elo; try lia.
      replace (eu <=? PyFloat.emax - PyFloat.prec)%Z with true
        by (symmetry; apply Z.leb_le; unfold PyFloat.emax, PyFloat.prec, eu; lia).
      exists m, eu, lo. rewrite Elo.
      split; [reflexivity|]. split; [lia|]. split; [lia|].
      split; [unfold eu; lia|]. split; [exact Hbr|].
      right. split; [reflexivity|].
      unfold F2R. rewrite HV. nra.
Qed.

End RoundAux.

(** *** The quotient before rounding *)

Section DivCore.
Local Open Scope R_scope.

Lemma new_location_inbetween (m2 q r : Z) (w : R) :
  (0 <= r < m2)%Z -> w * IZR m2 = IZR q * IZR m2 + IZR r ->
  inbetween q (new_location m2 r) w.
Proof.
  intros Hr Hw.
  assert (HM : 0 < IZR m2) by (apply IZR_lt; lia).
  assert (Hr0 : 0 <= IZR r) by (apply IZR_le; lia).
  assert (Hr2 : IZR r < IZR m2) by (apply IZR_lt; lia).
  assert (Hcmp : forall c : comparison,
            match c with
            | Lt => 2 * IZR r < IZR m2
            | Eq => 2 * IZR r = IZR m2
            | Gt => IZR m2 < 2 * IZR r
            end -> (1 <= IZR r) -> inbetween q (loc_Inexact c) w).
  { assert (Ht : (w - IZR q) * IZR m2 = IZR r) by lra.
    assert (Hwt : w = IZR q + (w - IZR q)) by lra.
    revert Ht Hwt. generalize (w - IZR q). intros t Ht ->.
    intros [] Hc Hr1; cbn [inbetween].
    - assert ((t - / 2) * IZR m2 = 0) by lra.
      assert (t - / 2 = 0) by nra. lra.
    - split; [nra|]. assert ((t - / 2) * IZR m2 < 0) by lra. nra.
    - split; [|nra]. assert (0 < (t - / 2) * IZR m2) by lra. nra. }
  unfold new_location.
  destruct (Z.even m2) eqn:Heven;
    [unfold new_location_even|unfold new_location_odd];
    (destruct (Z.eqb_spec r 0) as [->|Hrne];
     [cbn [inbetween]; nra|]);
    (assert (Hr1 : 1 <= IZR r) by (apply IZR_le; lia)).
  - apply Hcmp; [|exact Hr1].
    destruct (Z.compare_spec (2 * r) m2) as [H|H|H].
    + rewrite <- H, mult_IZR. reflexivity.
    + apply IZR_lt in H. rewrite mult_IZR in H. exact H.
    + apply IZR_lt in H. rewrite mult_IZR in H. exact H.
  - assert (Hodd : (2 * r <> m2)%Z).
    { intros <-. rewrite Z.even_mul in Heven. discriminate. }
    destruct (Z.compare_spec (2 * r + 1) m2) as [H|H|H];
      (apply Hcmp; [|exact Hr1]).
    + assert (H' : (2 * r < m2)%Z) by lia.
      apply IZR_lt in H'. rewrite mult_IZR in H'. exact H'.
    + assert (H' : (2 * r < m2)%Z) by lia.
      apply IZR_lt in H'. rewrite mult_IZR in H'. exact H'.
    + assert (H' : (m2 < 2 * r)%Z) by lia.
      apply IZR_lt in H'. rewrite mult_IZR in H'. exact H'.
Qed.

End DivCore.

(** The integer quotient of [m1 * 2^s] by [m2] has as many digits as the
    operands' digits tell, up to one. *)
Lemma quotient_digits (m1 m2 s : Z) :
  0 < m1 -> 0 < m2 -> 0 <= s ->
  0 <= Zdigits2 m1 - 1 + s - Zdigits2 m2 ->
  let q := (m1 * 2 ^ s) / m2 in
  0 < q
  /\ Zdigits2 m1 + s - Zdigits2 m2 <= Zdigits2 q
     <= Zdigits2 m1 + s - Zdigits2 m2 + 1.
Proof.
  intros H1 H2 Hs Hk q.
  pose proof (Zdigits2_bounds m1 H1) as B1.
  pose proof (Zdigits2_bounds m2 H2) as B2.
  set (d1 := Zdigits2 m1) in *. set (d2 := Zdigits2 m2) in *.
  set (k := d1 - 1 + s - d2) in *.
  assert (Hd1 : 0 < d1) by (unfold d1; destruct m1; cbn; lia).
  assert (Hd2 : 0 < d2) by (unfold d2; destruct m2; cbn; lia).
  assert (Hp2 : 0 < 2 ^ s) by (apply Z.pow_pos_nonneg; lia).
  assert (Hlow : 2 ^ k <= q).
  { apply Z.div_le_lower_bound; [lia|].
    apply Z.le_trans with (2 ^ d2 * 2 ^ k).
    - apply Z.mul_le_mono_nonneg_r; [apply Z.pow_nonneg|]; lia.
    - rewrite <- Z.pow_add_r by lia.
      replace (d2 + k) with ((d1 - 1) + s) by (unfold k; lia).
      rewrite Z.pow_add_r by lia.
      apply Z.mul_le_mono_nonneg_r; lia. }
  assert (Hhigh : q < 2 ^ (k + 2)).
  { apply Z.div_lt_upper_bound; [lia|].
    apply Z.lt_le_trans with (2 ^ d1 * 2 ^ s).
    - apply Z.mul_lt_mono_pos_r; lia.
    - rewrite <- Z.pow_add_r by lia.
      replace (d1 + s) with ((d2 - 1) + (k + 2)) by (unfold k; lia).
      rewrite Z.pow_add_r by lia.
      apply Z.mul_le_mono_nonneg_r; [apply Z.pow_nonneg|]; lia. }
  assert (Hq : 0 < q) by (pose proof (Z.pow_pos_nonneg 2 k); lia).
  split; [exact Hq|].
  pose proof (Zdigits2_bounds q Hq) as Bq.
  set (dq := Zdigits2 q) in *.
  assert (Hdq : 0 < dq) by (unfold dq; destruct q; cbn; lia).
  replace (d1 + s - d2) with (k + 1) by (unfold k; lia).
  split.
  - destruct (Z_lt_le_dec k dq) as [H|H]; [lia|].
    assert (2 ^ dq <= 2 ^ k) by (apply Z.pow_le_mono_r; lia). lia.
  - destruct (Z_lt_le_dec (k + 2) dq) as [H|H]; [|lia].
    assert (2 ^ (k + 2) <= 2 ^ (dq - 1)) by (apply Z.pow_le_mono_r; lia). lia.
Qed.

Section Division.
Local Open Scope R_scope.

(** The core of the division returns a mantissa of at least 53 bits that
    stands for the exact quotient. *)
Lemma SFdiv_core_binary_normal (m1 e1 m2 e2 : Z) :
  (0 < m1)%Z -> (0 < m2)%Z ->
  (-1021 <= Zdigits2 m1 + e1 - (Zdigits2 m2 + e2))%Z ->
  exists (q e' : Z) (l : location) (w : R),
    SFdiv_core_binary PyFloat.prec PyFloat.emax m1 e1 m2 e2 = (q, e', l)
    /\ (0 < q)%Z /\ (53 <= Zdigits2 q)%Z
    /\ (Zdigits2 m1 + e1 - (Zdigits2 m2 + e2) <= Zdigits2 q + e'
        <= Zdigits2 m1 + e1 - (Zdigits2 m2 + e2) + 1)%Z
    /\ inbetween q l w
    /\ w * pow2 e' = F2R m1 e1 / F2R m2 e2.
Proof.
  intros H1 H2 HD. unfold SFdiv_core_binary.
  rewrite fexp_normal by exact HD.
  set (d1 := Zdigits2 m1) in *. set (d2 := Zdigits2 m2) in *.
  set (e' := Z.min (d1 + e1 - (d2 + e2) - 53) (e1 - e2)).
  set (s := (e1 - e2 - e')%Z).
  assert (Hs : (0 <= s)%Z) by (unfold s, e'; lia).
  assert (Hs53 : (53 - d1 + d2 <= s)%Z) by (unfold s, e'; lia).
  set (m' := match s with
             | 0%Z => m1
             | Z.pos _ => Z.shiftl m1 s
             | Z.neg _ => 0%Z
             end).
  assert (Hm' : m' = (m1 * 2 ^ s)%Z).
  { unfold m'. destruct s as [|p|p] eqn:Es; [lia| |lia].
    apply Z.shiftl_mul_pow2. lia. }
  clearbody m'. subst m'.
  pose proof (Z_div_mod (m1 * 2 ^ s) m2 ltac:(lia)) as Hdm.
  assert (Hq : fst (Z.div_eucl (m1 * 2 ^ s) m2) = (m1 * 2 ^ s / m2)%Z)
    by reflexivity.
  destruct (Z.div_eucl (m1 * 2 ^ s) m2) as [q r]. cbn [fst] in Hq.
  destruct Hdm as [Hdiv Hr].
  destruct (quotient_digits m1 m2 s H1 H2 Hs) as [Hq0 Hdq].
  { fold d1 d2. lia. }
  fold d1 d2 in Hdq. rewrite <- Hq in Hq0, Hdq.
  assert (HM2 : 0 < IZR m2) by (apply IZR_lt; lia).
  exists q, e', (new_location m2 r), (IZR (m1 * 2 ^ s) / IZR m2).
  split; [reflexivity|]. split; [exact Hq0|]. split; [lia|].
  split; [unfold s in Hdq; lia|]. split.
  - apply new_location_inbetween; [lia|].
    rewrite Hdiv at 1. rewrite plus_IZR, mult_IZR. field. lra.
  - unfold F2R. rewrite mult_IZR, <- pow2_IZR by exact Hs.
    assert (He1 : pow2 e1 = pow2 s * pow2 e' * pow2 e2)
      by (rewrite <- !pow2_add; f_equal; unfold s; lia).
    rewrite He1. pose proof (pow2_pos e2). field. split; lra.
Qed.

(** Division then rounding: the result is a rounding of the exact
    quotient. *)
Lemma div_round_normal (m1 e1 m2 e2 : Z) :
  (0 < m1)%Z -> (0 < m2)%Z ->
  (-1021 <= Zdigits2 m1 + e1 - (Zdigits2 m2 + e2) <= 1022)%Z ->
  exists (m : positive) (e : Z),
    (let '(q, e', l) := SFdiv_core_binary PyFloat.prec PyFloat.emax m1 e1 m2 e2 in
     binary_round_aux PyFloat.prec PyFloat.emax false q e' l) = S754_finite false m e
    /\ rounds_to (F2R m1 e1 / F2R m2 e2) m e
    /\ (Zdigits2 m1 + e1 - (Zdigits2 m2 + e2) - 53 <= e
        <= Zdigits2 m1 + e1 - (Zdigits2 m2 + e2) - 51)%Z.
Proof.
  intros H1 H2 HD.
  destruct (SFdiv_core_binary_normal m1 e1 m2 e2 H1 H2 ltac:(lia))
    as (q & e' & l & w & Hcore & Hq & Hdq & Hde & Hin & HV).
  rewrite Hcore.
  destruct (binary_round_aux_normal q e' l w Hq Hin Hdq ltac:(lia))
    as (m & e & lo & Hr & Hm & Hlo & He & Hbr & Hcase).
  rewrite HV in Hbr, Hcase.
  exists m, e. split; [exact Hr|]. split; [|lia].
  split; [exact Hm|].
  exists lo, (Zdigits2 q + e' - 53)%Z.
  split; [exact Hlo|]. split; [lia|]. split; [exact Hbr|exact Hcase].
Qed.

End Division.

(** *** A rounding does not cross an integer *)

Section Grid.
Local Open Scope R_scope.

(** An integer is a multiple of [pow2 eu] when [eu <= 0]. *)
Lemma IZR_on_grid (n eu : Z) :
  (eu <= 0)%Z -> IZR n = F2R (n * 2 ^ (- eu)) eu.
Proof.
  intros He. unfold F2R. rewrite mult_IZR, <- pow2_IZR by lia.
  rewrite Rmult_assoc, <- pow2_add.
  replace (- eu + eu)%Z with 0%Z by lia. rewrite pow2_0. lra.
Qed.

Lemma F2R_lt_inv (a b e : Z) : F2R a e < F2R b e -> (a < b)%Z.
Proof.
  unfold F2R. intros H. pose proof (pow2_pos e). apply lt_IZR. nra.
Qed.

Lemma F2R_le (a b e : Z) : (a <= b)%Z -> F2R a e <= F2R b e.
Proof.
  unfold F2R. intros H. pose proof (pow2_pos e). apply IZR_le in H. nra.
Qed.

Lemma grid_succ_le (lo eu n : Z) :
  (eu <= 0)%Z -> F2R lo eu < IZR n -> F2R (lo + 1) eu <= IZR n.
Proof.
  intros He H. rewrite (IZR_on_grid n eu He) in H |- *.
  apply F2R_lt_inv in H. apply F2R_le. lia.
Qed.

Lemma grid_le_pred (lo eu n : Z) :
  (eu <= 0)%Z -> IZR n < F2R (lo + 1) eu -> IZR n <= F2R lo eu.
Proof.
  intros He H. rewrite (IZR_on_grid n eu He) in H |- *.
  apply F2R_lt_inv in H. apply F2R_le. lia.
Qed.

(** A 53-bit mantissa below [2^53] in value has a non-positive exponent. *)
Lemma exponent_nonpos (lo eu : Z) :
  (2 ^ 52 <= lo)%Z -> F2R lo eu < pow2 53 -> (eu <= 0)%Z.
Proof.
  intros Hlo H. unfold F2R in H.
  assert (pow2 52 <= IZR lo) by (rewrite pow2_IZR by lia; apply IZR_le; lia).
  pose proof (pow2_pos eu).
  assert (pow2 (52 + eu) < pow2 53) by (rewrite pow2_add; nra).
  apply pow2_lt_inv in H2. lia.
Qed.

(** Rounding a real below [2^53] never goes below an integer that the
    real is not below. *)
Lemma rounds_to_ge (V : R) (m : positive) (e n : Z) :
  rounds_to V m e -> V < pow2 53 -> IZR n <= V -> IZR n <= F2R (Z.pos m) e.
Proof.
  intros (Hm & lo & eu & Hlo & He & Hbr & Hcase) HV Hn.
  assert (Heu : (eu <= 0)%Z) by (apply (exponent_nonpos lo); [lia|lra]).
  assert (Hlow : IZR n <= F2R lo eu) by (apply grid_le_pred; [exact Heu|lra]).
  assert (F2R lo eu <= F2R (lo + 1) eu) by (apply F2R_le; lia).
  destruct Hcase as [->|[-> _]]; lra.
Qed.

(** Nor does it reach an integer above the real, if that integer is
    further from the real than a [2^-53]-th of it. *)
Lemma rounds_to_lt (V : R) (m : positive) (e n : Z) :
  rounds_to V m e -> V < pow2 53 -> V < IZR n ->
  V * pow2 (- 53) <= IZR n - V ->
  F2R (Z.pos m) e < IZR n.
Proof.
  intros (Hm & lo & eu & Hlo & He & Hbr & Hcase) HV Hn Hgap.
  assert (Heu : (eu <= 0)%Z) by (apply (exponent_nonpos lo); [lia|lra]).
  destruct Hcase as [->|[-> Hhalf]]; [lra|].
  assert (Hup : F2R (lo + 1) eu <= IZR n) by (apply grid_succ_le; [exact Heu|lra]).
  destruct (Rle_lt_or_eq_dec _ _ Hup) as [Hlt|Heq]; [exact Hlt|exfalso].
  pose proof (pow2_pos eu) as Hu.
  assert (H52 : pow2 52 <= IZR lo) by (rewrite pow2_IZR by lia; apply IZR_le; lia).
  assert (H53 : pow2 (- 53) * pow2 52 = / 2).
  { rewrite <- pow2_add. exact pow2_m1. }
  unfold F2R in *. rewrite plus_IZR in Heq.
  assert (Hsmall : pow2 eu / 2 < V * pow2 (- 53)).
  { pose proof (pow2_pos (- 53)) as Hp.
    apply Rle_lt_trans with (pow2 52 * pow2 eu * pow2 (- 53)); [nra|].
    apply Rmult_lt_compat_r; [exact Hp|]. nra. }
  nra.
Qed.

End Grid.

(** ** Conversions between ints and floats *)

Section Conversions.
Local Open Scope R_scope.

(** [int(x)] of a positive float is the integer part of its value. *)
Lemma to_int_floor (m : positive) (e : Z) :
  exists t, PyFloat.to_int (S754_finite false m e) = Ok t
            /\ IZR t <= F2R (Z.pos m) e < IZR t + 1.
Proof.
  unfold PyFloat.to_int, F2R. destruct e as [|p|p].
  - exists (Z.pos m). split; [reflexivity|]. rewrite pow2_0. lra.
  - exists (Z.pos m * 2 ^ Z.pos p)%Z. split.
    + rewrite Z.shiftl_mul_pow2 by lia. reflexivity.
    + rewrite mult_IZR, <- pow2_IZR by lia. lra.
  - exists (Z.pos m / 2 ^ Z.pos p)%Z. split.
    + rewrite Z.shiftr_div_pow2 by lia. reflexivity.
    + assert (Hp : (0 < 2 ^ Z.pos p)%Z) by (apply Z.pow_pos_nonneg; lia).
      pose proof (Z.mul_div_le (Z.pos m) _ Hp) as Hlow.
      pose proof (Z.mul_succ_div_gt (Z.pos m) _ Hp) as Hhigh.
      set (t := (Z.pos m / 2 ^ Z.pos p)%Z) in *.
      apply IZR_le in Hlow. apply IZR_lt in Hhigh.
      unfold Z.succ in Hhigh.
      rewrite mult_IZR in Hlow, Hhigh. rewrite plus_IZR in Hhigh.
      rewrite <- pow2_IZR in Hlow, Hhigh by lia.
      change (Z.neg p) with (- Z.pos p)%Z. rewrite pow2_opp.
      pose proof (pow2_pos (Z.pos p)) as Hpos.
      split.
      * apply Rmult_le_reg_r with (pow2 (Z.pos p)); [exact Hpos|].
        rewrite Rmult_assoc, Rinv_l by lra. lra.
      * apply Rmult_lt_reg_r with (pow2 (Z.pos p)); [exact Hpos|].
        rewrite Rmult_assoc, Rinv_l by lra. lra.
Qed.

End Conversions.

Lemma Pos_iter_xO (p d : positive) :
  Z.pos (Pos.iter xO p d) = Z.pos p * 2 ^ Z.pos d.
Proof.
  induction d as [|d IH] using Pos.peano_ind.
  - cbn. lia.
  - rewrite Pos.iter_succ, Pos2Z.inj_xO, IH, Pos2Z.inj_succ.
    rewrite Z.pow_succ_r by lia. lia.
Qed.

Lemma binary_round_aux_canonical (s : bool) (m : positive) (e : Z) :
  2 ^ 52 <= Z.pos m < 2 ^ 53 -> -1074 <= e <= 971 ->
  binary_round_aux PyFloat.prec PyFloat.emax s (Z.pos m) e loc_Exact
  = S754_finite s m e.
Proof.
  intros Hm He. unfold binary_round_aux.
  rewrite shr_fexp_canonical by lia.
  cbn [shr_record_of_loc shr_m loc_of_shr_record round_nearest_even].
  rewrite shr_fexp_canonical by lia.
  cbn [shr_record_of_loc shr_m].
  replace (e <=? PyFloat.emax - PyFloat.prec) with true
    by (symmetry; apply Z.leb_le; unfold PyFloat.emax, PyFloat.prec; lia).
  reflexivity.
Qed.

(** [float(g)] is exact below [2^53]. *)
Lemma of_int_exact (g : Z) :
  0 < g < 2 ^ 53 ->
  exists (mg : positive) (eg : Z),
    PyFloat.of_int g = Ok (S754_finite false mg eg)
    /\ 2 ^ 52 <= Z.pos mg < 2 ^ 53
    /\ -52 <= eg <= 0
    /\ F2R (Z.pos mg) eg = IZR g.
Proof.
  intros Hg. destruct g as [|p|p]; try lia.
  pose proof (Zdigits2_bounds (Z.pos p) ltac:(lia)) as Hb.
  cbn [Zdigits2] in Hb. set (dg := Z.pos (digits2_pos p)) in *.
  assert (Hdg : 1 <= dg <= 53).
  { split; [unfold dg; lia|].
    destruct (Z_lt_le_dec 53 dg) as [H|H]; [|exact H].
    assert (2 ^ 53 <= 2 ^ (dg - 1)) by (apply Z.pow_le_mono_r; lia). lia. }
  assert (Hmz : exists mz : positive,
            shl_align p 0 (dg - 53) = (mz, dg - 53)
            /\ Z.pos mz = Z.pos p * 2 ^ (53 - dg)).
  { unfold shl_align. destruct (dg - 53 - 0) as [|d|d] eqn:Ed; try lia.
    - exists p. replace (dg - 53) with 0 by lia.
      replace (53 - dg) with 0 by lia. split; [reflexivity|]. cbn. lia.
    - exists (Pos.iter xO p d). split; [reflexivity|].
      rewrite Pos_iter_xO. f_equal. f_equal. lia. }
  destruct Hmz as (mz & Hal & Hmz).
  assert (Hmz53 : 2 ^ 52 <= Z.pos mz < 2 ^ 53).
  { rewrite Hmz.
    assert (H52 : 2 ^ 52 = 2 ^ (dg - 1) * 2 ^ (53 - dg))
      by (rewrite <- Z.pow_add_r by lia; f_equal; lia).
    assert (H53 : 2 ^ 53 = 2 ^ dg * 2 ^ (53 - dg))
      by (rewrite <- Z.pow_add_r by lia; f_equal; lia).
    assert (0 < 2 ^ (53 - dg)) by (apply Z.pow_pos_nonneg; lia).
    rewrite H52, H53. split.
    - apply Z.mul_le_mono_nonneg_r; lia.
    - apply Z.mul_lt_mono_pos_r; lia. }
  exists mz, (dg - 53). split; [|split; [exact Hmz53|split; [lia|]]].
  - unfold PyFloat.of_int, binary_normalize, binary_round.
    fold dg. rewrite Z.add_0_r, fexp_normal by lia. rewrite Hal.
    rewrite binary_round_aux_canonical by lia. reflexivity.
  - unfold F2R. rewrite Hmz, mult_IZR, <- pow2_IZR by lia.
    rewrite Rmult_assoc, <- pow2_add.
    replace (53 - dg + (dg - 53)) with 0 by lia. rewrite pow2_0. lra.
Qed.

(** ** The two divisions of the iteration formula *)

Lemma Zdigits2_53 (a : Z) : 0 < a < 2 ^ 53 -> 1 <= Zdigits2 a <= 53.
Proof.
  intros Ha. pose proof (Zdigits2_bounds a ltac:(lia)) as Hb.
  split; [destruct a; cbn; lia|].
  destruct (Z_lt_le_dec 53 (Zdigits2 a)) as [H|H]; [|exact H].
  assert (2 ^ 53 <= 2 ^ (Zdigits2 a - 1)) by (apply Z.pow_le_mono_r; lia).
  lia.
Qed.

Section Quotients.
Local Open Scope R_scope.

Lemma int_truediv_pos (a b : Z) :
  (0 < a < 2 ^ 53)%Z -> (0 < b < 2 ^ 53)%Z ->
  exists (m : positive) (e : Z),
    PyFloat.int_truediv a b = Ok (S754_finite false m e)
    /\ rounds_to (IZR a / IZR b) m e
    /\ (-105 <= e <= 1)%Z.
Proof.
  intros Ha Hb.
  pose proof (Zdigits2_53 a Ha) as Hda. pose proof (Zdigits2_53 b Hb) as Hdb.
  destruct (div_round_normal a 0 b 0 ltac:(lia) ltac:(lia) ltac:(lia))
    as (m & e & Hr & Hto & He).
  exists m, e. split; [|split; [|lia]].
  - unfold PyFloat.int_truediv.
    replace (b =? 0)%Z with false by (symmetry; apply Z.eqb_neq; lia).
    replace (a =? 0)%Z with false by (symmetry; apply Z.eqb_neq; lia).
    rewrite !Z.abs_eq by lia.
    replace (PyFloat.quot_sign a b) with false.
    2:{ unfold PyFloat.quot_sign.
        replace (a <? 0)%Z with false by (symmetry; apply Z.ltb_ge; lia).
        replace (b <? 0)%Z with false by (symmetry; apply Z.ltb_ge; lia).
        reflexivity. }
    destruct (SFdiv_core_binary PyFloat.prec PyFloat.emax a 0 b 0)
      as [[q e'] l].
    rewrite Hr. reflexivity.
  - unfold F2R in Hto. rewrite pow2_0, !Rmult_1_r in Hto. exact Hto.
Qed.

Lemma truediv_int_pos (mx : positive) (ex g : Z) :
  (2 ^ 52 <= Z.pos mx < 2 ^ 53)%Z -> (-900 <= ex <= 900)%Z ->
  (0 < g < 2 ^ 53)%Z ->
  exists (m : positive) (e : Z),
    PyFloat.truediv_int (S754_finite false mx ex) g
    = Ok (S754_finite false m e)
    /\ rounds_to (F2R (Z.pos mx) ex / IZR g) m e.
Proof.
  intros Hmx Hex Hg.
  destruct (of_int_exact g Hg) as (mg & eg & Hof & Hmg & Heg & Hval).
  assert (Hdx : Zdigits2 (Z.pos mx) = 53%Z)
    by (apply Zdigits2_unique; [change (53 - 1)%Z with 52%Z|]; lia).
  assert (Hdg : Zdigits2 (Z.pos mg) = 53%Z)
    by (apply Zdigits2_unique; [change (53 - 1)%Z with 52%Z|]; lia).
  destruct (div_round_normal (Z.pos mx) ex (Z.pos mg) eg
              ltac:(lia) ltac:(lia) ltac:(lia))
    as (m & e & Hr & Hto & He).
  exists m, e. split.
  - unfold PyFloat.truediv_int. rewrite Hof. cbn [bind PyFloat.is_zero SFdiv xorb].
    destruct (SFdiv_core_binary PyFloat.prec PyFloat.emax (Z.pos mx) ex
                (Z.pos mg) eg) as [[q e'] l].
    rewrite Hr. reflexivity.
  - rewrite Hval in Hto. exact Hto.
Qed.

(** [int(a / b)] is the integer quotient as long as [a] and [b] are below
    [2^53]. *)
Lemma int_truediv_to_int (a b : Z) :
  (0 < a < 2 ^ 53)%Z -> (0 < b < 2 ^ 53)%Z ->
  (do x <- PyFloat.int_truediv a b ; PyFloat.to_int x) = Ok (a / b)%Z.
Proof.
  intros Ha Hb.
  destruct (int_truediv_pos a b Ha Hb) as (m & e & Hdiv & Hto & _).
  rewrite Hdiv. cbn [bind].
  destruct (to_int_floor m e) as (t & Ht & Hfl). rewrite Ht. f_equal.
  set (k := (a / b)%Z).
  pose proof (Z.mul_div_le a b ltac:(lia)) as Hk1.
  pose proof (Z.mul_succ_div_gt a b ltac:(lia)) as Hk2.
  fold k in Hk1, Hk2. unfold Z.succ in Hk2.
  assert (HA : 0 < IZR a) by (apply IZR_lt; lia).
  assert (HB : 1 <= IZR b) by (apply IZR_le; lia).
  assert (HA53 : IZR a + 1 <= pow2 53).
  { rewrite pow2_IZR, <- plus_IZR by lia. apply IZR_le. lia. }
  assert (Hinv : pow2 53 * pow2 (- 53) = 1).
  { rewrite <- pow2_add. exact pow2_0. }
  pose proof (pow2_pos (- 53)) as Hp53.
  set (V := IZR a / IZR b) in *.
  assert (HV : V * IZR b = IZR a) by (unfold V; field; lra).
  apply IZR_le in Hk1. apply IZR_lt in Hk2.
  rewrite mult_IZR in Hk1, Hk2. rewrite plus_IZR in Hk2.
  assert (Hk2' : IZR a + 1 <= IZR b * (IZR k + 1)).
  { rewrite <- (plus_IZR k 1), <- mult_IZR, <- (plus_IZR a 1).
    apply IZR_le. pose proof (Z.mul_succ_div_gt a b ltac:(lia)). fold k in H.
    unfold Z.succ in H. lia. }
  assert (HVa : V <= IZR a) by nra.
  assert (HV53 : V < pow2 53) by lra.
  assert (HkV : IZR k <= V) by nra.
  assert (HVk : V < IZR (k + 1)) by (rewrite plus_IZR; nra).
  assert (Hgap : V * pow2 (- 53) <= IZR (k + 1) - V).
  { rewrite plus_IZR.
    assert (V * pow2 (- 53) * IZR b <= (IZR k + 1 - V) * IZR b); [|nra].
    assert (IZR a * pow2 (- 53) < 1) by nra. nra. }
  pose proof (rounds_to_ge _ _ _ k Hto HV53 HkV) as Hlow.
  pose proof (rounds_to_lt _ _ _ (k + 1) Hto HV53 HVk Hgap) as Hhigh.
  rewrite plus_IZR in Hhigh.
  assert (H1 : IZR t < IZR (k + 1)) by (rewrite plus_IZR; lra).
  assert (H2 : IZR k < IZR (t + 1)) by (rewrite plus_IZR; lra).
  apply lt_IZR in H1, H2. lia.
Qed.

End Quotients.

Section Iterations.
Local Open Scope R_scope.

(** [int(a / b / g)] is the integer quotient of [a] by [b * g] as long as
    the three are below [2^53]: neither rounding crosses an integer. *)
Lemma two_divisions_to_int (a b g : Z) :
  (0 < a < 2 ^ 53)%Z -> (0 < b < 2 ^ 53)%Z -> (0 < g < 2 ^ 53)%Z ->
  (do q1 <- PyFloat.int_truediv a b ;
   do q2 <- PyFloat.truediv_int q1 g ;
   PyFloat.to_int q2) = Ok (a / (b * g))%Z.
Proof.
  intros Ha Hb Hg.
  destruct (int_truediv_pos a b Ha Hb) as (mx & ex & Hdiv & Hto1 & Hex).
  rewrite Hdiv. cbn [bind].
  pose proof Hto1 as (Hmx & _).
  destruct (truediv_int_pos mx ex g Hmx ltac:(lia) Hg) as (m & e & Hdiv2 & Hto2).
  rewrite Hdiv2. cbn [bind].
  destruct (to_int_floor m e) as (t & Ht & Hfl). rewrite Ht. f_equal.
  (* the integer quotient *)
  set (k := (a / (b * g))%Z).
  assert (Hk0 : (0 <= k)%Z) by (apply Z.div_pos; nia).
  assert (Hk1 : (k * g * b <= a)%Z).
  { pose proof (Z.mul_div_le a (b * g) ltac:(nia)) as H. fold k in H. nia. }
  assert (Hk2 : (a + 1 <= (k + 1) * g * b)%Z).
  { pose proof (Z.mul_succ_div_gt a (b * g) ltac:(nia)) as H. fold k in H.
    unfold Z.succ in H. nia. }
  assert (Hka : (k <= a)%Z) by nia.
  apply IZR_le in Hk1, Hk2.
  rewrite !mult_IZR, !plus_IZR in Hk2. rewrite !mult_IZR in Hk1.
  (* reals *)
  assert (HA : 0 < IZR a) by (apply IZR_lt; lia).
  assert (HB : 1 <= IZR b) by (apply IZR_le; lia).
  assert (HG : 1 <= IZR g) by (apply IZR_le; lia).
  assert (HK : 0 <= IZR k) by (apply IZR_le; lia).
  assert (HA53 : IZR a + 1 <= pow2 53).
  { rewrite pow2_IZR, <- plus_IZR by lia. apply IZR_le. lia. }
  assert (HK53 : IZR k + 1 <= pow2 53).
  { apply IZR_le in Hka. lra. }
  assert (Hinv : pow2 53 * pow2 (- 53) = 1).
  { rewrite <- pow2_add. exact pow2_0. }
  pose proof (pow2_pos (- 53)) as Hp53.
  (* first division *)
  set (V1 := IZR a / IZR b) in *.
  assert (HV1 : V1 * IZR b = IZR a) by (unfold V1; field; lra).
  assert (HV1a : V1 <= IZR a) by nra.
  assert (HV1lt : V1 < pow2 53) by lra.
  assert (Hsmall : IZR a * pow2 (- 53) < 1) by nra.
  set (x := F2R (Z.pos mx) ex) in *.
  assert (Hx1 : IZR (k * g) <= x).
  { apply (rounds_to_ge V1); [exact Hto1|exact HV1lt|].
    rewrite mult_IZR. nra. }
  assert (Hx2 : x < IZR ((k + 1) * g)).
  { apply (rounds_to_lt V1); [exact Hto1|exact HV1lt| |];
      rewrite mult_IZR, plus_IZR.
    - nra.
    - assert (V1 * pow2 (- 53) * IZR b
              <= ((IZR k + 1) * IZR g - V1) * IZR b); nra. }
  assert (Hx3 : x < pow2 53).
  { rewrite (pow2_IZR 53) by lia.
    apply (rounds_to_lt V1); [exact Hto1|exact HV1lt| |];
      rewrite <- (pow2_IZR 53) by lia.
    - exact HV1lt.
    - nra. }
  assert (Hex0 : (ex <= 0)%Z) by (apply (exponent_nonpos (Z.pos mx)); [lia|exact Hx3]).
  (* the float [x] is at least one unit in the last place below the next
     multiple of [g] *)
  assert (Hulp : x * pow2 (- 53) <= IZR ((k + 1) * g) - x).
  { pose proof (grid_succ_le (Z.pos mx) ex _ Hex0 Hx2) as Hnext.
    unfold x, F2R in *. rewrite plus_IZR in Hnext.
    pose proof (pow2_pos ex) as Hu.
    assert (IZR (Z.pos mx) < pow2 53).
    { rewrite pow2_IZR by lia. apply IZR_lt. lia. }
    assert (IZR (Z.pos mx) * pow2 ex * pow2 (- 53) <= pow2 ex); [|lra].
    assert (IZR (Z.pos mx) * pow2 (- 53) <= 1) by nra. nra. }
  rewrite mult_IZR, plus_IZR in Hx2, Hulp. rewrite mult_IZR in Hx1.
  (* second division *)
  set (V2 := x / IZR g) in *.
  assert (HV2 : V2 * IZR g = x) by (unfold V2; field; lra).
  assert (HkV : IZR k <= V2) by nra.
  assert (HVk : V2 < IZR (k + 1)) by (rewrite plus_IZR; nra).
  assert (HV2lt : V2 < pow2 53) by (rewrite plus_IZR in HVk; lra).
  assert (Hgap : V2 * pow2 (- 53) <= IZR (k + 1) - V2).
  { rewrite plus_IZR.
    assert (V2 * pow2 (- 53) * IZR g <= (IZR k + 1 - V2) * IZR g); nra. }
  pose proof (rounds_to_ge _ _ _ k Hto2 HV2lt HkV) as Hlow.
  pose proof (rounds_to_lt _ _ _ (k + 1) Hto2 HV2lt HVk Hgap) as Hhigh.
  rewrite plus_IZR in Hhigh.
  assert (H1 : IZR t < IZR (k + 1)) by (rewrite plus_IZR; lra).
  assert (H2 : IZR k < IZR (t + 1)) by (rewrite plus_IZR; lra).
  apply lt_IZR in H1, H2. lia.
Qed.

(** Integer division is the floor of the real quotient, also when the
    divisions are done one after the other. *)
Lemma Zdiv_floor (a b : Z) :
  (0 < b)%Z -> IZR (a / b) <= IZR a / IZR b < IZR (a / b) + 1.
Proof.
  intros Hb.
  pose proof (Z.mul_div_le a b Hb) as Hlow.
  pose proof (Z.mul_succ_div_gt a b Hb) as Hhigh. unfold Z.succ in Hhigh.
  apply IZR_le in Hlow. apply IZR_lt in Hhigh.
  rewrite mult_IZR in Hlow, Hhigh. rewrite plus_IZR in Hhigh.
  assert (HB : 0 < IZR b) by (apply IZR_lt; lia).
  set (V := IZR a / IZR b).
  assert (HV : V * IZR b = IZR a) by (unfold V; field; lra).
  split; nra.
Qed.

Lemma Zdiv_floor_twice (a b g : Z) :
  (0 < b)%Z -> (0 < g)%Z ->
  IZR (a / (b * g)) <= IZR a / IZR b / IZR g < IZR (a / (b * g)) + 1.
Proof.
  intros Hb Hg.
  assert (HB : 0 < IZR b) by (apply IZR_lt; lia).
  assert (HG : 0 < IZR g) by (apply IZR_lt; lia).
  replace (IZR a / IZR b / IZR g) with (IZR a / IZR (b * g))
    by (rewrite mult_IZR; field; lra).
  apply Zdiv_floor. nia.
Qed.

End Iterations.

Lemma n_iter_exact (num_epoch n_data images_per_batch gpus : Z) :
  0 < num_epoch * n_data < 2 ^ 53 ->
  0 < images_per_batch < 2 ^ 53 ->
  0 < gpus < 2 ^ 53 ->
  n_iter num_epoch n_data images_per_batch gpus
  = Ok (num_epoch * n_data / (images_per_batch * gpus)).
Proof.
  intros Ha Hb Hg. unfold n_iter. apply two_divisions_to_int; assumption.
Qed.

Lemma n_iter_val_exact (n : Z) :
  0 <= n < 2 ^ 53 -> n_iter_val n = Ok (n / 2).
Proof.
  intros Hn. unfold n_iter_val.
  destruct (Z.eq_dec n 0) as [->|Hne]; [reflexivity|].
  apply int_truediv_to_int; [lia|]. change (2 ^ 53) with 9007199254740992. lia.
Qed.

Lemma override_of_exact (num_epoch images_per_batch n_data gpus : Z) :
  0 < num_epoch * n_data < 2 ^ 53 ->
  0 < images_per_batch < 2 ^ 53 ->
  0 < gpus < 2 ^ 53 ->
  override_of num_epoch images_per_batch n_data gpus
  = Ok {| num_iterations := num_epoch * n_data / (images_per_batch * gpus);
          num_iterations_per_validation :=
            num_epoch * n_data / (images_per_batch * gpus) / 2;
          num_images_per_batch := images_per_batch;
          num_epochs := num_epoch;
          num_warmup_iterations :=
            num_epoch * n_data / (images_per_batch * gpus) / 2 |}.
Proof.
  intros Ha Hb Hg. unfold override_of.
  rewrite n_iter_exact by assumption. cbn [bind].
  rewrite n_iter_val_exact; [reflexivity|].
  assert (Hbg : 1 <= images_per_batch * gpus) by nia.
  split; [apply Z.div_pos; lia|].
  apply Z.le_lt_trans with (num_epoch * n_data); [|lia].
  apply Z.div_le_upper_bound; [lia|].
  generalize dependent (num_epoch * n_data).
  generalize dependent (images_per_batch * gpus). intros; nia.
Qed.

(** ** The override calculator *)

Lemma binary_round_aux_sign (s : bool) (m e : Z) (l : location) :
  binary_round_aux PyFloat.prec PyFloat.emax s m e l
  = match binary_round_aux PyFloat.prec PyFloat.emax false m e l with
    | S754_zero _ => S754_zero s
    | S754_infinity _ => S754_infinity s
    | S754_nan => S754_nan
    | S754_finite _ m' e' => S754_finite s m' e'
    end.
Proof.
  unfold binary_round_aux.
  destruct (shr_fexp PyFloat.prec PyFloat.emax m e l) as [mrs' e'].
  destruct (shr_fexp PyFloat.prec PyFloat.emax _ e' loc_Exact) as [mrs'' e''].
  destruct (shr_m mrs''); [reflexivity| |reflexivity].
  destruct (e'' <=? PyFloat.emax - PyFloat.prec); reflexivity.
Qed.

(** A quotient of two ints below [2^53] in magnitude is a float. *)
Lemma int_truediv_small (a b : Z) :
  b <> 0 -> Z.abs a < 2 ^ 53 -> Z.abs b < 2 ^ 53 ->
  exists x, PyFloat.int_truediv a b = Ok x.
Proof.
  intros Hb Ha53 Hb53. unfold PyFloat.int_truediv.
  replace (b =? 0) with false by (symmetry; apply Z.eqb_neq; lia).
  destruct (Z.eqb_spec a 0) as [->|Ha]; [eexists; reflexivity|].
  pose proof (Zdigits2_53 (Z.abs a) ltac:(lia)) as Hda.
  pose proof (Zdigits2_53 (Z.abs b) ltac:(lia)) as Hdb.
  destruct (div_round_normal (Z.abs a) 0 (Z.abs b) 0
              ltac:(lia) ltac:(lia) ltac:(lia))
    as (m & e & Hr & _).
  destruct (SFdiv_core_binary PyFloat.prec PyFloat.emax (Z.abs a) 0 (Z.abs b) 0)
    as [[q e'] l].
  rewrite binary_round_aux_sign, Hr. eexists. reflexivity.
Qed.

Lemma int_truediv_zero (a : Z) :
  PyFloat.int_truediv a 0 = Raise ZeroDivisionError.
Proof. reflexivity. Qed.

Lemma truediv_int_zero (x : PyFloat.float) :
  PyFloat.truediv_int x 0 = Raise ZeroDivisionError.
Proof. reflexivity. Qed.

Lemma override_of_zero_batch (num_epoch n_data gpus : Z) :
  override_of num_epoch 0 n_data gpus = Raise ZeroDivisionError.
Proof. reflexivity. Qed.

Lemma override_of_zero_gpus (num_epoch images_per_batch n_data : Z) :
  override_of num_epoch images_per_batch n_data 0
  = match PyFloat.int_truediv (num_epoch * n_data) images_per_batch with
    | Ok _ => Raise ZeroDivisionError
    | Raise e => Raise e
    end.
Proof.
  unfold override_of, n_iter.
  destruct (PyFloat.int_truediv (num_epoch * n_data) images_per_batch) as [x|e];
    reflexivity.
Qed.

(** C1, as amended: for a positive number of images, batch size and GPU
    count, and the epoch count in use (the supplied one raised to at least
    2), whenever epochs times images, the batch size and the GPU count are
    each below [2^53], the calculator returns
    [num_iterations = floor(epochs * images / batch / gpus)], the floor of
    the real quotient, [num_iterations_per_validation =
    floor(num_iterations / 2)] and the same value as
    [num_warmup_iterations]; the same holds of lines 218-230 alone for any
    positive [num_epoch].  For 24 images, batches of 2, one GPU and 2
    epochs the values are 24 and 12. *)
Theorem override_param_formula (max_epochs images_per_batch n_data gpus : Z) :
  0 < n_data ->
  0 < images_per_batch < 2 ^ 53 ->
  0 < gpus < 2 ^ 53 ->
  Z.max max_epochs 2 * n_data < 2 ^ 53 ->
  let n := Z.max max_epochs 2 * n_data / (images_per_batch * gpus) in
  override_param max_epochs images_per_batch n_data gpus
  = Ok {| num_iterations := n;
          num_iterations_per_validation := n / 2;
          num_images_per_batch := images_per_batch;
          num_epochs := Z.max max_epochs 2;
          num_warmup_iterations := n / 2 |}
  /\ (forall num_epoch, 0 < num_epoch -> num_epoch * n_data < 2 ^ 53 ->
        let n' := num_epoch * n_data / (images_per_batch * gpus) in
        override_of num_epoch images_per_batch n_data gpus
        = Ok {| num_iterations := n';
                num_iterations_per_validation := n' / 2;
                num_images_per_batch := images_per_batch;
                num_epochs := num_epoch;
                num_warmup_iterations := n' / 2 |})
  /\ (IZR n <= IZR (Z.max max_epochs 2 * n_data) / IZR images_per_batch / IZR gpus
               < IZR n + 1
      /\ IZR (n / 2) <= IZR n / 2 < IZR (n / 2) + 1)%R
  /\ override_param 2 2 24 1 = Ok notebook_override.
Proof.
  intros Hn Hb Hg Ha. cbv zeta. split; [|split; [|split]].
  - unfold override_param, safeguard. rewrite py_max_spec.
    apply override_of_exact; [nia|assumption|assumption].
  - intros num_epoch He Ha'.
    apply override_of_exact; [nia|assumption|assumption].
  - split; [apply Zdiv_floor_twice; lia|apply (Zdiv_floor _ 2); lia].
  - reflexivity.
Qed.

Lemma override_param_notebook :
  override_param 2 2 24 1
  = Ok {| num_iterations := 24;
          num_iterations_per_validation := 12;
          num_images_per_batch := 2;
          num_epochs := 2;
          num_warmup_iterations := 12 |}.
Proof.
  exact (proj1 (override_param_formula 2 2 24 1
                  eq_refl (conj eq_refl eq_refl) (conj eq_refl eq_refl)
                  eq_refl)).
Defined.

(** C1 as stated fails beyond [2^53]: with 2 epochs and [2^53 + 1] images,
    one image per batch and one GPU, the product [2^54 + 2] is rounded to
    the float [2^54] and the calculator returns [2^54], not [2^54 + 2]. *)
Lemma override_param_beyond_2_53 :
  0 < 2 /\ 0 < 9007199254740993 /\ 0 < 1
  /\ exists o, override_param 2 1 9007199254740993 1 = Ok o
               /\ num_iterations o = 18014398509481984
               /\ num_iterations o <> 2 * 9007199254740993 / (1 * 1).
Proof.
  repeat (split; [reflexivity|]).
  eexists. split; [vm_compute; reflexivity|].
  split; [reflexivity|]. vm_compute. discriminate.
Qed.

(** C4, as amended: a zero batch size always raises [ZeroDivisionError];
    a zero GPU count raises [ZeroDivisionError] once the first quotient,
    epochs times images over the batch size, has been computed, which it
    is whenever both are below [2^53] in magnitude; if that quotient
    overflows the float range, its [OverflowError] is what is raised. *)
Theorem override_param_zero_division
    (max_epochs images_per_batch n_data gpus : Z) :
  (images_per_batch = 0 ->
     override_param max_epochs images_per_batch n_data gpus
     = Raise ZeroDivisionError)
  /\ (gpus = 0 ->
        override_param max_epochs images_per_batch n_data gpus
        = match PyFloat.int_truediv (Z.max max_epochs 2 * n_data)
                  images_per_batch with
          | Ok _ => Raise ZeroDivisionError
          | Raise e => Raise e
          end)
  /\ (gpus = 0 ->
        Z.abs (Z.max max_epochs 2 * n_data) < 2 ^ 53 ->
        Z.abs images_per_batch < 2 ^ 53 ->
        override_param max_epochs images_per_batch n_data gpus
        = Raise ZeroDivisionError).
Proof.
  unfold override_param, safeguard. rewrite py_max_spec.
  split; [|split].
  - intros ->. apply override_of_zero_batch.
  - intros ->. apply override_of_zero_gpus.
  - intros -> Ha Hb. rewrite override_of_zero_gpus.
    destruct (Z.eq_dec images_per_batch 0) as [->|Hne]; [reflexivity|].
    destruct (int_truediv_small _ _ Hne Ha Hb) as [x ->]. reflexivity.
Qed.

Lemma override_param_no_gpu :
  override_param 2 2 24 0 = Raise ZeroDivisionError.
Proof.
  apply (override_param_zero_division 2 2 24 0); vm_compute; reflexivity.
Defined.

(** C4 as stated fails when the first quotient is too large for a float:
    with [2^1100] images and no GPU the calculator raises [OverflowError]
    at the first division and never reaches the division by zero. *)
Lemma override_param_overflow_first :
  override_param 2 1 (2 ^ 1100) 0 = Raise OverflowError
  /\ override_param 2 1 (2 ^ 1100) 0 <> Raise ZeroDivisionError.
Proof.
  assert (H : override_param 2 1 (2 ^ 1100) 0 = Raise OverflowError)
    by (vm_compute; reflexivity).
  split; [exact H|]. rewrite H. discriminate.
Qed.

(** ** The cell as the notebook runs it *)

(** With the notebook's config and literals, one visible GPU gives 24
    iterations and validation every 12. *)
Lemma override_cell_one_gpu (datalist_file dataroot : string) :
  override_cell (input_cfg msd_task datalist_file dataroot) 1 2 2 24
  = Ok notebook_override.
Proof.
  unfold override_cell. rewrite num_gpus_notebook. reflexivity.
Qed.

(** On a machine without a visible GPU the device count is 0 and the cell
    stops with [ZeroDivisionError]. *)
Lemma override_cell_no_gpu (datalist_file dataroot : string) :
  override_cell (input_cfg msd_task datalist_file dataroot) 0 2 2 24
  = Raise ZeroDivisionError.
Proof.
  unfold override_cell. rewrite num_gpus_notebook. reflexivity.
Qed.

(** * Further properties *)

(** ** The selector: errors, negative indices, what is returned *)

Lemma list_getitem_error {A : Type} (l : list A) (i : Z) (e : exn) :
  list_getitem l i = Raise e -> e = IndexError.
Proof.
  unfold list_getitem. destruct (_ || _); [congruence|].
  destruct (l !! _); [discriminate|congruence].
Qed.

Lemma list_getitem_Ok_elem {A : Type} (l : list A) (i : Z) (a : A) :
  list_getitem l i = Ok a -> a ∈ l.
Proof.
  unfold list_getitem. destruct (_ || _); [discriminate|].
  destruct (l !! _) as [a'|] eqn:Hl; [|discriminate].
  intros [= <-]. apply list_elem_of_lookup. eexists. exact Hl.
Qed.

Lemma list_getitem_nat_inv {A : Type} (l : list A) (i : nat) (a : A) :
  list_getitem l (Z.of_nat i) = Ok a -> l !! i = Some a.
Proof.
  unfold list_getitem.
  destruct (Z.ltb_spec (Z.of_nat i) 0) as [Hneg|_]; [lia|].
  destruct (_ || _); [discriminate|]. rewrite Nat2Z.id.
  destruct (l !! i); [|discriminate]. intros [= ->]. reflexivity.
Qed.

Lemma list_getitem_neg {A : Type} (l : list A) (j : nat) (a : A) :
  (1 <= j <= length l)%nat -> l !! (length l - j)%nat = Some a ->
  list_getitem l (- Z.of_nat j) = Ok a.
Proof.
  intros Hj Hl. unfold list_getitem.
  destruct (Z.ltb_spec (- Z.of_nat j) 0) as [_|Hge]; [|lia].
  destruct (Z.ltb_spec (- Z.of_nat j + Z.of_nat (length l)) 0) as [Hneg|_]; [lia|].
  destruct (Z.leb_spec (Z.of_nat (length l))
              (- Z.of_nat j + Z.of_nat (length l))) as [Hge|_]; [lia|].
  cbn [orb].
  replace (Z.to_nat (- Z.of_nat j + Z.of_nat (length l)))
    with (length l - j)%nat by lia.
  rewrite Hl. reflexivity.
Qed.

Lemma list_getitem_below {A : Type} (l : list A) (i : Z) :
  i < - Z.of_nat (length l) -> list_getitem l i = Raise IndexError.
Proof.
  intros Hi. unfold list_getitem.
  destruct (Z.ltb_spec i 0) as [_|Hge]; [|lia].
  destruct (Z.ltb_spec (i + Z.of_nat (length l)) 0) as [_|Hge]; [|lia].
  reflexivity.
Qed.

Lemma dict_keys_lookup {V : Type} (d : dict V) (i : nat) (k : string) :
  dict_keys d !! i = Some k <-> exists v, d !! i = Some (k, v).
Proof.
  unfold dict_keys, dict in *. rewrite list_lookup_fmap. split.
  - destruct (d !! i) as [[k' v]|]; cbn; [|discriminate].
    intros [= ->]. exists v. reflexivity.
  - intros [v ->]. reflexivity.
Qed.

Section SelectorMore.
Context {Algo : Type}.
Implicit Types (history : list (dict Algo)) (d : dict Algo).

(** X1: whatever the history and the index, the only exception selection
    can raise is [IndexError]: the name looked up in the entry was read
    from that entry's own key list, so the lookup cannot raise
    [KeyError]. *)
Theorem select_only_IndexError history (i : Z) (e : exn) :
  select history i = Raise e -> e = IndexError.
Proof.
  unfold select.
  destruct (list_getitem history i) as [d|e1] eqn:Hd; cbn [bind].
  2:{ intros [= <-]. exact (list_getitem_error _ _ _ Hd). }
  destruct (list_getitem (dict_keys d) i) as [k|e2] eqn:Hk; cbn [bind].
  2:{ intros [= <-]. exact (list_getitem_error _ _ _ Hk). }
  destruct (dict_getitem_key d k (list_getitem_Ok_elem _ _ _ Hk)) as (a & -> & _).
  discriminate.
Qed.

(** X2: on a history of well-formed dicts and for a non-negative index
    [i], selection returns [(d, k, a)] exactly when [d] is entry [i] of the
    history and [(k, a)] is binding [i] of [d]: the handle returned is the
    one stored at the same position as the name. *)
Theorem select_Ok_iff history (i : nat) d (k : string) (a : Algo) :
  Forall dict_wf history ->
  select history (Z.of_nat i) = Ok (d, k, a)
  <-> history !! i = Some d /\ d !! i = Some (k, a).
Proof.
  intros Hwf. rewrite Forall_lookup in Hwf. split.
  - unfold select.
    destruct (list_getitem history (Z.of_nat i)) as [d'|] eqn:Hd;
      cbn [bind]; [|discriminate].
    destruct (list_getitem (dict_keys d') (Z.of_nat i)) as [k'|] eqn:Hk;
      cbn [bind]; [|discriminate].
    destruct (dict_getitem d' k') as [a'|] eqn:Ha; cbn [bind]; [|discriminate].
    intros [= -> -> ->].
    apply list_getitem_nat_inv in Hd, Hk.
    split; [exact Hd|].
    apply dict_keys_lookup in Hk as [v Hv].
    rewrite (dict_getitem_lookup d i k v (Hwf _ _ Hd) Hv) in Ha.
    congruence.
  - intros [Hd Hka].
    destruct (select_at history i d k Hd) as (a' & -> & Ha').
    { apply dict_keys_lookup. exists a. exact Hka. }
    rewrite (dict_getitem_lookup d i k a (Hwf _ _ Hd) Hka) in Ha'. congruence.
Qed.

(** X3: a negative index counts from the end in both subscripts:
    [-j] selects the [j]-th entry from the end of the history and the
    [j]-th binding from the end of that entry; an index below
    [-len(history)] raises [IndexError], and so does [-j] when the entry
    found holds fewer than [j] names. *)
Theorem select_negative history (j : nat) :
  (forall d k a,
     (1 <= j <= length history)%nat ->
     history !! (length history - j)%nat = Some d ->
     dict_wf d -> (j <= length d)%nat ->
     d !! (length d - j)%nat = Some (k, a) ->
     select history (- Z.of_nat j) = Ok (d, k, a))
  /\ ((length history < j)%nat ->
      select history (- Z.of_nat j) = Raise IndexError)
  /\ (forall d,
        (1 <= j <= length history)%nat ->
        history !! (length history - j)%nat = Some d ->
        (length d < j)%nat ->
        select history (- Z.of_nat j) = Raise IndexError).
Proof.
  split; [|split].
  - intros d k a Hj Hd Hwf Hjd Hka. unfold select.
    rewrite (list_getitem_neg _ _ _ Hj Hd). cbn [bind].
    assert (Hlen : length (dict_keys d) = length d)
      by (unfold dict_keys; apply length_map).
    assert (Hk : dict_keys d !! (length (dict_keys d) - j)%nat = Some k).
    { rewrite Hlen. apply dict_keys_lookup. exists a. exact Hka. }
    rewrite (list_getitem_neg (dict_keys d) j k); [|lia|exact Hk].
    cbn [bind]. rewrite (dict_getitem_lookup d _ k a Hwf Hka). reflexivity.
  - intros Hlt. unfold select. rewrite list_getitem_below by lia. reflexivity.
  - intros d Hj Hd Hlt. unfold select.
    rewrite (list_getitem_neg _ _ _ Hj Hd). cbn [bind].
    rewrite list_getitem_below; [reflexivity|].
    unfold dict_keys. rewrite length_map. lia.
Qed.

End SelectorMore.

Lemma wide_history_wf : Forall dict_wf wide_history.
Proof.
  constructor; [|constructor; [|constructor]];
    unfold dict_wf; cbn [dict_keys map fst].
  - apply NoDup_singleton.
  - apply NoDup_cons. split; [|apply NoDup_singleton].
    rewrite list_elem_of_singleton. discriminate.
Defined.

Lemma select_only_IndexError_sample :
  select sample_history 1 = Raise IndexError /\ IndexError = IndexError.
Proof.
  split; [reflexivity|].
  apply (select_only_IndexError sample_history 1). reflexivity.
Defined.

Lemma select_Ok_iff_wide :
  select wide_history 1
  = Ok ([("dints_0"%string, 1%nat); ("segresnet_0"%string, 2%nat)],
        "segresnet_0"%string, 2%nat).
Proof.
  apply (select_Ok_iff wide_history 1).
  - exact wide_history_wf.
  - split; reflexivity.
Defined.

Lemma select_negative_wide :
  select wide_history (-1)
  = Ok ([("dints_0"%string, 1%nat); ("segresnet_0"%string, 2%nat)],
        "segresnet_0"%string, 2%nat).
Proof.
  apply (proj1 (select_negative wide_history 1)).
  - cbn; lia.
  - reflexivity.
  - exact (Forall_inv (Forall_inv_tail wide_history_wf)).
  - cbn; lia.
  - reflexivity.
Defined.

(** ** The cells: fallback then selection, and running a step twice *)

Lemma count_snoc (p : event -> bool) (l : list event) (ev : event) :
  count p (l ++ [ev]) = (count p l + if p ev then 1 else 0)%nat.
Proof.
  unfold count. rewrite filter_app, length_app. f_equal.
  rewrite filter_cons. destruct (decide (p ev = true)) as [H|H].
  - rewrite H. reflexivity.
  - destruct (p ev); [congruence|reflexivity].
Qed.

Lemma select_nil {Algo : Type} (i : Z) :
  select ([] : list (dict Algo)) i = Raise IndexError.
Proof.
  unfold select.
  destruct (Z_lt_le_dec i 0) as [Hneg|Hpos].
  - rewrite list_getitem_below by (cbn [length]; lia). reflexivity.
  - rewrite list_getitem_ge by (cbn [length]; lia). reflexivity.
Qed.

Section CellFacts.
Context {Algo : Type} (X : externals Algo).

Lemma load_history_outcome (work_dir : string) (w : world) :
  fst (load_history X work_dir w)
  = match mem_history X w with
    | Ok [] =>
        fst (x_import_bundle_algo_history X work_dir false
               (snd (x_get_history X (fs w))))
    | Ok h => Ok h
    | Raise e =>
        if is_Exception e
        then fst (x_import_bundle_algo_history X work_dir false
                    (snd (x_get_history X (fs w))))
        else Raise e
    end.
Proof.
  unfold mem_history, load_history, try_except_Exception, bindM, call.
  destruct (x_get_history X (fs w)) as [[h|e] fs1]; cbn [fst snd].
  - unfold assert, ret, raise.
    destruct h as [|d h];
      match goal with
      | |- context [0 <? ?n] => destruct (Z.ltb_spec 0 n) as [Hlt|Hge]
      end; cbn [length] in *; try lia; cbn.
    + destruct (x_import_bundle_algo_history X work_dir false fs1). reflexivity.
    + reflexivity.
  - destruct (is_Exception e); cbn.
    + destruct (x_import_bundle_algo_history X work_dir false fs1). reflexivity.
    + reflexivity.
Qed.

Lemma select_cell_fst (work_dir : string) (i : Z) (w : world) :
  fst (select_cell X work_dir i w)
  = (do history <- fst (load_history X work_dir w) ; select history i).
Proof.
  unfold select_cell, bindM, lift.
  destruct (load_history X work_dir w) as [[h|e] w']; reflexivity.
Qed.

(** X4: what the selection cell returns.  A non-empty history from the
    generator is the one selected from.  When the generator gives an empty
    history or raises an [Exception], the selection is made from what the
    disk import returns, and an exception of the import is the cell's.  An
    exception that is not an [Exception] is the cell's at once.  The
    imported history is not checked: if it is empty, the cell raises
    [IndexError] for every index. *)
Theorem select_cell_outcome (work_dir : string) (i : Z) (w : world) :
  let disk := fst (x_import_bundle_algo_history X work_dir false
                     (snd (x_get_history X (fs w)))) in
  fst (select_cell X work_dir i w)
  = match mem_history X w with
    | Ok [] => do history <- disk ; select history i
    | Ok history => select history i
    | Raise e =>
        if is_Exception e then do history <- disk ; select history i
        else Raise e
    end
  /\ (mem_history X w = Ok []
      \/ (exists e, mem_history X w = Raise e /\ is_Exception e = true) ->
      disk = Ok [] ->
      fst (select_cell X work_dir i w) = Raise IndexError).
Proof.
  cbv zeta. rewrite select_cell_fst, load_history_outcome. split.
  - destruct (mem_history X w) as [[|d h]|e]; [reflexivity|reflexivity|].
    destruct (is_Exception e); reflexivity.
  - intros [->|(e & -> & ->)] ->; cbn [bind]; apply select_nil.
Qed.

Lemma provision_Ok_present (resource compressed_file root_dir dataroot : string)
    (w w1 : world) :
  (forall files,
     fst (x_download_and_extract X resource compressed_file root_dir files) = Ok tt ->
     dataroot ∈ snd (x_download_and_extract X resource compressed_file root_dir files)) ->
  provision X resource compressed_file root_dir dataroot w = (Ok tt, w1) ->
  dataroot ∈ fs w1
  /\ (count is_download (log w1) <= count is_download (log w) + 1)%nat.
Proof.
  intros Hx. unfold provision, bindM, os_path_exists.
  destruct (decide (dataroot ∈ fs w)) as [Hin|Hnin].
  - rewrite bool_decide_eq_true_2 by exact Hin. cbn. intros [= <-].
    split; [exact Hin|lia].
  - rewrite bool_decide_eq_false_2 by exact Hnin. cbn.
    unfold download_and_extract, call.
    specialize (Hx (fs w)).
    destruct (x_download_and_extract X resource compressed_file root_dir (fs w))
      as [r fs1]. cbn [fst snd] in Hx.
    intros [= -> <-]. cbn [fs log]. split; [exact (Hx eq_refl)|].
    rewrite count_snoc. cbn. lia.
Qed.

(** X5: provided a download that returns leaves the expected path in
    place, a provisioning that returned is followed by one that does
    nothing: the path exists afterwards, a second run returns with the
    world unchanged, and the two runs together download at most once. *)
Theorem provision_twice (resource compressed_file root_dir dataroot : string)
    (w w1 : world) :
  (forall files,
     fst (x_download_and_extract X resource compressed_file root_dir files) = Ok tt ->
     dataroot ∈ snd (x_download_and_extract X resource compressed_file root_dir files)) ->
  provision X resource compressed_file root_dir dataroot w = (Ok tt, w1) ->
  dataroot ∈ fs w1
  /\ provision X resource compressed_file root_dir dataroot w1 = (Ok tt, w1)
  /\ (run first <- provision X resource compressed_file root_dir dataroot ;
      provision X resource compressed_file root_dir dataroot) w = (Ok tt, w1)
  /\ (count is_download (log w1) <= count is_download (log w) + 1)%nat.
Proof.
  intros Hx Hrun.
  destruct (provision_Ok_present _ _ _ _ _ _ Hx Hrun) as [Hin Hcount].
  pose proof (provision_present X resource compressed_file root_dir _ _ Hin) as H2.
  split; [exact Hin|]. split; [exact H2|]. split; [|exact Hcount].
  unfold bindM. rewrite Hrun. exact H2.
Qed.

Lemma stats_step_Ok_present (datalist_file dataroot datastats_file : string)
    (w w1 : world) :
  (forall files,
     fst (x_get_all_case_stats X files) = Ok tt ->
     datastats_file ∈ snd (x_get_all_case_stats X files)) ->
  stats_step X datalist_file dataroot datastats_file w = (Ok tt, w1) ->
  datastats_file ∈ fs w1
  /\ (count is_analyzer (log w1) <= count is_analyzer (log w) + 1)%nat.
Proof.
  intros Hx. unfold stats_step, bindM, os_path_exists.
  destruct (decide (datastats_file ∈ fs w)) as [Hin|Hnin].
  - rewrite bool_decide_eq_true_2 by exact Hin. cbn. intros [= <-].
    split; [exact Hin|lia].
  - rewrite bool_decide_eq_false_2 by exact Hnin. cbn. unfold call.
    destruct (x_DataAnalyzer X datalist_file dataroot datastats_file (fs w))
      as [[[]|e] fs1]; cbn [fs log]; [|discriminate].
    specialize (Hx fs1).
    destruct (x_get_all_case_stats X fs1) as [r fs2]. cbn [fst snd] in Hx.
    intros [= -> <-]. cbn [fs log]. split; [exact (Hx eq_refl)|].
    rewrite !count_snoc. cbn. lia.
Qed.

(** X6: provided an analysis that returns leaves the statistics file in
    place, a statistics step that returned is followed by one that does
    nothing: the file exists afterwards, a second run returns with the
    world unchanged, and the two runs together construct the analyzer at
    most once. *)
Theorem stats_step_twice (datalist_file dataroot datastats_file : string)
    (w w1 : world) :
  (forall files,
     fst (x_get_all_case_stats X files) = Ok tt ->
     datastats_file ∈ snd (x_get_all_case_stats X files)) ->
  stats_step X datalist_file dataroot datastats_file w = (Ok tt, w1) ->
  datastats_file ∈ fs w1
  /\ stats_step X datalist_file dataroot datastats_file w1 = (Ok tt, w1)
  /\ (run first <- stats_step X datalist_file dataroot datastats_file ;
      stats_step X datalist_file dataroot datastats_file) w = (Ok tt, w1)
  /\ (count is_analyzer (log w1) <= count is_analyzer (log w) + 1)%nat.
Proof.
  intros Hx Hrun.
  destruct (stats_step_Ok_present _ _ _ _ _ Hx Hrun) as [Hin Hcount].
  pose proof (stats_step_present X datalist_file dataroot _ _ Hin) as H2.
  split; [exact Hin|]. split; [exact H2|]. split; [|exact Hcount].
  unfold bindM. rewrite Hrun. exact H2.
Qed.

End CellFacts.

Lemma select_cell_empty_disk :
  fst (select_cell (caching_externals "./hpo_nni_work_dir/datastats.yaml" (Ok []))
         "./hpo_nni_work_dir" 0 empty_world)
  = Raise IndexError.
Proof.
  apply (select_cell_outcome
           (caching_externals "./hpo_nni_work_dir/datastats.yaml" (Ok []))
           "./hpo_nni_work_dir" 0 empty_world).
  - right. exists RuntimeError. split; reflexivity.
  - reflexivity.
Defined.

Lemma provision_twice_empty_world :
  os_path_join "/data" msd_task ∈ fs downloaded_world
  /\ provision (sample_externals (Ok [])) resource
       "/data/Task04_Hippocampus.tar" "/data" (os_path_join "/data" msd_task)
       downloaded_world
     = (Ok tt, downloaded_world).
Proof.
  destruct (provision_twice (sample_externals (Ok [])) resource
              "/data/Task04_Hippocampus.tar" "/data"
              (os_path_join "/data" msd_task) empty_world downloaded_world)
    as (Hin & Hsecond & _).
  - intros files _. cbn. set_solver.
  - reflexivity.
  - split; [exact Hin|exact Hsecond].
Defined.

Lemma stats_step_twice_empty_world :
  stats_step (caching_externals "./hpo_nni_work_dir/datastats.yaml" (Ok []))
    "folds.json" "/data/Task04_Hippocampus" "./hpo_nni_work_dir/datastats.yaml"
    analyzed_world
  = (Ok tt, analyzed_world).
Proof.
  apply (stats_step_twice
           (caching_externals "./hpo_nni_work_dir/datastats.yaml" (Ok []))
           "folds.json" "/data/Task04_Hippocampus"
           "./hpo_nni_work_dir/datastats.yaml" empty_world analyzed_world).
  - intros files _. cbn. set_solver.
  - reflexivity.
Defined.

(** ** The override calculator: which errors, and when *)

Section NotNan.
Local Open Scope R_scope.

Lemma inbetween_exists (m : Z) (l : location) : exists w, inbetween m l w.
Proof.
  destruct l as [|[]]; cbn.
  - exists (IZR m). reflexivity.
  - exists (IZR m + / 2). reflexivity.
  - exists (IZR m + / 4). lra.
  - exists (IZR m + 3 / 4). lra.
Qed.

Lemma shr_fexp_nonneg (m e : Z) (l : location) :
  (0 <= m)%Z -> (0 <= shr_m (fst (shr_fexp PyFloat.prec PyFloat.emax m e l)))%Z.
Proof.
  intros Hm. destruct (inbetween_exists m l) as [w Hw]. unfold shr_fexp.
  destruct (shr_inbetween (shr_record_of_loc m l) e
              (fexp PyFloat.prec PyFloat.emax (Zdigits2 m + e) - e) w)
    as [[H0 _] _]; [|exact H0].
  apply rec_inbetween_of_loc; assumption.
Qed.

End NotNan.

Lemma round_nearest_even_nonneg (m : Z) (l : location) :
  0 <= m -> 0 <= round_nearest_even m l.
Proof.
  intros Hm. destruct l as [|[]]; cbn; try lia. destruct (Z.even m); lia.
Qed.

(** Rounding a non-negative mantissa never gives NaN. *)
Lemma binary_round_aux_not_nan (s : bool) (mx ex : Z) (lx : location) :
  0 <= mx ->
  binary_round_aux PyFloat.prec PyFloat.emax s mx ex lx <> S754_nan.
Proof.
  intros Hmx. unfold binary_round_aux.
  pose proof (shr_fexp_nonneg mx ex lx Hmx) as H1.
  destruct (shr_fexp PyFloat.prec PyFloat.emax mx ex lx) as [mrs' e'].
  cbn [fst] in H1.
  pose proof (shr_fexp_nonneg _ e' loc_Exact
                (round_nearest_even_nonneg _ (loc_of_shr_record mrs') H1)) as H2.
  destruct (shr_fexp PyFloat.prec PyFloat.emax _ e' loc_Exact) as [mrs'' e''].
  cbn [fst] in H2.
  destruct (shr_m mrs''); [discriminate| |lia].
  destruct (e'' <=? PyFloat.emax - PyFloat.prec); discriminate.
Qed.

Lemma SFdiv_core_binary_nonneg (m1 e1 m2 e2 : Z) :
  0 < m1 -> 0 < m2 ->
  0 <= fst (fst (SFdiv_core_binary PyFloat.prec PyFloat.emax m1 e1 m2 e2)).
Proof.
  intros H1 H2. unfold SFdiv_core_binary.
  set (s := e1 - e2 - _).
  set (m' := match s with 0 => m1 | Z.pos _ => Z.shiftl m1 s | Z.neg _ => 0 end).
  assert (Hm' : 0 <= m').
  { unfold m'. destruct s; [lia| |lia]. apply Z.shiftl_nonneg. lia. }
  pose proof (Z_div_mod m' m2 ltac:(lia)) as Hdm.
  destruct (Z.div_eucl m' m2) as [q r]. cbn [fst]. nia.
Qed.

Lemma SFdiv_not_nan (x : PyFloat.float) (s : bool) (m : positive) (e : Z) :
  x <> S754_nan ->
  SFdiv PyFloat.prec PyFloat.emax x (S754_finite s m e) <> S754_nan.
Proof.
  intros Hx. destruct x as [sx|sx| |sx mx ex]; cbn [SFdiv];
    [discriminate|discriminate|congruence|].
  pose proof (SFdiv_core_binary_nonneg (Z.pos mx) ex (Z.pos m) e
                ltac:(lia) ltac:(lia)) as Hq.
  destruct (SFdiv_core_binary PyFloat.prec PyFloat.emax (Z.pos mx) ex (Z.pos m) e)
    as [[q e'] l]. cbn [fst] in Hq.
  apply binary_round_aux_not_nan. exact Hq.
Qed.

(** [a / b] on two ints raises [ZeroDivisionError] exactly for [b = 0];
    its only other exception is [OverflowError], and what it returns is
    not NaN. *)
Lemma int_truediv_cases (a b : Z) :
  match PyFloat.int_truediv a b with
  | Ok x => b <> 0 /\ x <> S754_nan
  | Raise e => (e = ZeroDivisionError /\ b = 0) \/ (e = OverflowError /\ b <> 0)
  end.
Proof.
  unfold PyFloat.int_truediv.
  destruct (Z.eqb_spec b 0) as [->|Hb]; [left; split; reflexivity|].
  destruct (Z.eqb_spec a 0) as [->|Ha]; [split; [exact Hb|discriminate]|].
  pose proof (SFdiv_core_binary_nonneg (Z.abs a) 0 (Z.abs b) 0
                ltac:(lia) ltac:(lia)) as Hq.
  destruct (SFdiv_core_binary PyFloat.prec PyFloat.emax (Z.abs a) 0 (Z.abs b) 0)
    as [[q e'] l]. cbn [fst] in Hq.
  pose proof (binary_round_aux_not_nan (PyFloat.quot_sign a b) q e' l Hq) as Hnan.
  destruct (binary_round_aux PyFloat.prec PyFloat.emax _ q e' l);
    try (split; [exact Hb|discriminate]); [right; split; [reflexivity|exact Hb]|].
  congruence.
Qed.

Lemma to_int_cases (x : PyFloat.float) :
  x <> S754_nan ->
  match PyFloat.to_int x with
  | Ok _ => True
  | Raise e => e = OverflowError
  end.
Proof.
  intros Hx. destruct x; cbn; [exact I|reflexivity|congruence|exact I].
Qed.

Section Large.
Local Open Scope R_scope.

(** Above the subnormal range, a mantissa of at least 53 bits is rounded
    to a normal float or overflows: it does not vanish. *)
Lemma binary_round_aux_large (mx ex : Z) (lx : location) (w : R) :
  (0 < mx)%Z -> inbetween mx lx w ->
  (53 <= Zdigits2 mx)%Z -> (-1021 <= Zdigits2 mx + ex)%Z ->
  exists (m : positive) (e : Z),
    binary_round_aux PyFloat.prec PyFloat.emax false mx ex lx
    = if (e <=? PyFloat.emax - PyFloat.prec)%Z
      then S754_finite false m e else S754_infinity false.
Proof.
  intros Hmx Hw Hd Hrange.
  pose proof (Zdigits2_bounds mx Hmx) as Hb.
  set (d := Zdigits2 mx) in *. set (eu := (d + ex - 53)%Z).
  unfold binary_round_aux. unfold shr_fexp at 1. fold d.
  rewrite fexp_normal by lia.
  destruct (shr_inbetween (shr_record_of_loc mx lx) ex (d + ex - 53 - ex) w)
    as [H1 H2].
  { apply rec_inbetween_of_loc; [lia|exact Hw]. }
  destruct (shr (shr_record_of_loc mx lx) ex (d + ex - 53 - ex)) as [mrs' e'].
  cbn [fst snd] in H1, H2.
  assert (Hmax : Z.max 0 (d + ex - 53 - ex) = (d - 53)%Z) by lia.
  rewrite Hmax in H1, H2. clear Hmax.
  subst e'. replace (ex + (d - 53))%Z with eu by (unfold eu; lia).
  destruct H1 as [Hlo0 Hin].
  set (lo := shr_m mrs') in *. set (w1 := w * pow2 (- (d - 53))) in *.
  pose proof (inbetween_bounds _ _ _ Hin) as Hlo.
  pose proof (inbetween_bounds _ _ _ Hw) as Hmxw.
  assert (Hw1 : pow2 52 <= w1 < pow2 53).
  { unfold w1.
    assert (Hlow : pow2 (d - 1) <= w).
    { rewrite pow2_IZR by lia. apply Rle_trans with (IZR mx); [apply IZR_le; lia|lra]. }
    assert (Hhigh : w < pow2 d).
    { rewrite pow2_IZR by lia.
      apply Rlt_le_trans with (IZR mx + 1); [lra|].
      rewrite <- plus_IZR. apply IZR_le. lia. }
    assert (H52 : pow2 52 = pow2 (d - 1) * pow2 (- (d - 53)))
      by (rewrite <- pow2_add; f_equal; lia).
    assert (H53 : pow2 53 = pow2 d * pow2 (- (d - 53)))
      by (rewrite <- pow2_add; f_equal; lia).
    rewrite H52, H53. pose proof (pow2_pos (- (d - 53))). nra. }
  assert (Hlo53 : (2 ^ 52 <= lo < 2 ^ 53)%Z).
  { rewrite !pow2_IZR in Hw1 by lia. split.
    - assert (IZR (2 ^ 52) < IZR (lo + 1)) by (rewrite plus_IZR; lra).
      apply lt_IZR in H. lia.
    - apply lt_IZR. lra. }
  assert (Hm2 : (2 ^ 52 <= round_nearest_even lo (loc_of_shr_record mrs')
                 <= 2 ^ 53)%Z).
  { destruct (round_nearest_even_cases _ _ _ Hin) as [->|[-> _]]; lia. }
  set (m2 := round_nearest_even lo (loc_of_shr_record mrs')) in *.
  destruct (Z.eq_dec m2 (2 ^ 53)%Z) as [Hc|Hc].
  - rewrite Hc, shr_fexp_carry by (unfold eu; lia).
    cbn [shr_record_of_loc shr_m].
    change (2 ^ 52)%Z with (Z.pos 4503599627370496).
    eexists. eexists. reflexivity.
  - rewrite shr_fexp_canonical by (unfold eu; lia).
    cbn [shr_record_of_loc shr_m].
    destruct m2 as [|m|m] eqn:Em2; try lia.
    eexists. eexists. reflexivity.
Qed.

End Large.

(** [float(g)]: zero only for [g = 0], otherwise a finite float, or
    [OverflowError]. *)
Lemma of_int_cases (g : Z) :
  match PyFloat.of_int g with
  | Ok y => (g = 0 /\ y = S754_zero false)
            \/ (g <> 0 /\ exists s m e, y = S754_finite s m e)
  | Raise e => e = OverflowError /\ g <> 0
  end.
Proof.
  assert (Hpos : forall p : positive,
            (exists m e, binary_round PyFloat.prec PyFloat.emax false p 0
                         = S754_finite false m e)
            \/ binary_round PyFloat.prec PyFloat.emax false p 0
               = S754_infinity false).
  { intros p.
    destruct (Z_lt_le_dec (Z.pos p) (2 ^ 53)) as [Hsmall|Hbig].
    - destruct (of_int_exact (Z.pos p) ltac:(lia)) as (mg & eg & Hof & _).
      unfold PyFloat.of_int, binary_normalize in Hof.
      destruct (binary_round PyFloat.prec PyFloat.emax false p 0);
        try discriminate Hof.
      left. eexists. eexists. injection Hof as <- <- <-. reflexivity.
    - pose proof (Zdigits2_bounds (Z.pos p) ltac:(lia)) as Hb.
      cbn [Zdigits2] in Hb. set (dg := Z.pos (digits2_pos p)) in *.
      assert (Hdg : 54 <= dg).
      { destruct (Z_lt_le_dec dg 54) as [H|H]; [|exact H].
        assert (2 ^ dg <= 2 ^ 53) by (apply Z.pow_le_mono_r; lia). lia. }
      unfold binary_round. fold dg. rewrite Z.add_0_r, fexp_normal by lia.
      unfold shl_align. destruct (dg - 53 - 0) as [|q|q] eqn:Ed; try lia.
      destruct (binary_round_aux_large (Z.pos p) 0 loc_Exact (IZR (Z.pos p)))
        as (m & e & ->);
        [lia|reflexivity|cbn [Zdigits2]; fold dg; lia
        |cbn [Zdigits2]; fold dg; lia|].
      destruct (e <=? PyFloat.emax - PyFloat.prec);
        [left; eexists; eexists; reflexivity|right; reflexivity]. }
  unfold PyFloat.of_int, binary_normalize. destruct g as [|p|p].
  - left. split; reflexivity.
  - destruct (Hpos p) as [(m & e & ->)| ->].
    + right. split; [lia|]. eexists. eexists. eexists. reflexivity.
    + split; [reflexivity|lia].
  - unfold binary_round in *. specialize (Hpos p).
    destruct (shl_align p 0 _) as [mz ez].
    rewrite binary_round_aux_sign.
    destruct Hpos as [(m & e & ->)| ->].
    + right. split; [lia|]. eexists. eexists. eexists. reflexivity.
    + split; [reflexivity|lia].
Qed.

(** [x / g] with [x] not NaN raises [ZeroDivisionError] exactly for [g = 0];
    its only other exception is [OverflowError], and what it returns is
    not NaN. *)
Lemma truediv_int_cases (x : PyFloat.float) (g : Z) :
  x <> S754_nan ->
  match PyFloat.truediv_int x g with
  | Ok y => g <> 0 /\ y <> S754_nan
  | Raise e => (e = ZeroDivisionError /\ g = 0) \/ (e = OverflowError /\ g <> 0)
  end.
Proof.
  intros Hx. unfold PyFloat.truediv_int.
  pose proof (of_int_cases g) as Hg.
  destruct (PyFloat.of_int g) as [y|e]; cbn [bind].
  - destruct Hg as [[-> ->]|(Hne & s & m & e & ->)]; cbn [PyFloat.is_zero].
    + left. split; reflexivity.
    + split; [exact Hne|]. apply SFdiv_not_nan. exact Hx.
  - right. exact Hg.
Qed.

Lemma n_iter_cases (num_epoch n_data images_per_batch gpus : Z) :
  match n_iter num_epoch n_data images_per_batch gpus with
  | Ok _ => images_per_batch <> 0 /\ gpus <> 0
  | Raise e =>
      (e = ZeroDivisionError /\ (images_per_batch = 0 \/ gpus = 0))
      \/ (e = OverflowError /\ images_per_batch <> 0)
  end.
Proof.
  unfold n_iter.
  pose proof (int_truediv_cases (num_epoch * n_data) images_per_batch) as H1.
  destruct (PyFloat.int_truediv (num_epoch * n_data) images_per_batch)
    as [x|e]; cbn [bind].
  2:{ destruct H1 as [[-> ->]|[-> Hb]]; [left|right]; auto. }
  destruct H1 as [Hb Hx].
  pose proof (truediv_int_cases x gpus Hx) as H2.
  destruct (PyFloat.truediv_int x gpus) as [y|e]; cbn [bind].
  2:{ destruct H2 as [[-> ->]|[-> Hg]]; [left|right]; auto. }
  destruct H2 as [Hg Hy].
  pose proof (to_int_cases y Hy) as H3.
  destruct (PyFloat.to_int y) as [n|e]; [split; assumption|].
  right. split; assumption.
Qed.

Lemma n_iter_val_cases (n : Z) :
  match n_iter_val n with
  | Ok _ => True
  | Raise e => e = OverflowError
  end.
Proof.
  unfold n_iter_val.
  pose proof (int_truediv_cases n 2) as H1.
  destruct (PyFloat.int_truediv n 2) as [x|e]; cbn [bind].
  2:{ destruct H1 as [[_ H]|[-> _]]; [discriminate H|reflexivity]. }
  apply to_int_cases. apply H1.
Qed.

(** X7: the only exceptions the override calculator raises are
    [ZeroDivisionError] and [OverflowError] (never [ValueError]); a
    [ZeroDivisionError] means that the batch size or the GPU count is zero,
    and when the calculator returns neither is. *)
Theorem override_param_errors (max_epochs images_per_batch n_data gpus : Z) :
  match override_param max_epochs images_per_batch n_data gpus with
  | Ok _ => images_per_batch <> 0 /\ gpus <> 0
  | Raise e =>
      (e = ZeroDivisionError /\ (images_per_batch = 0 \/ gpus = 0))
      \/ e = OverflowError
  end.
Proof.
  unfold override_param, override_of.
  pose proof (n_iter_cases (safeguard max_epochs) n_data images_per_batch gpus)
    as H1.
  destruct (n_iter (safeguard max_epochs) n_data images_per_batch gpus)
    as [n|e]; cbn [bind].
  2:{ destruct H1 as [H|[-> _]]; [left; exact H|right; reflexivity]. }
  pose proof (n_iter_val_cases n) as H2.
  destruct (n_iter_val n) as [v|e]; cbn [bind]; [exact H1|].
  right. exact H2.
Qed.

Lemma override_param_errors_no_gpu :
  (ZeroDivisionError = ZeroDivisionError /\ (2 = 0 \/ 0 = 0))
  \/ ZeroDivisionError = OverflowError.
Proof.
  exact (override_param_errors 2 2 24 0).
Defined.

(** ** The override calculator: signs and zero *)

Lemma SFdiv_sign (sx sy : bool) (mx my : positive) (ex ey : Z) :
  SFdiv PyFloat.prec PyFloat.emax (S754_finite sx mx ex) (S754_finite sy my ey)
  = set_sign (xorb sx sy)
      (SFdiv PyFloat.prec PyFloat.emax (S754_finite false mx ex)
         (S754_finite false my ey)).
Proof.
  cbn [SFdiv xorb].
  destruct (SFdiv_core_binary PyFloat.prec PyFloat.emax (Z.pos mx) ex (Z.pos my) ey)
    as [[q e'] l].
  rewrite binary_round_aux_sign.
  destruct (binary_round_aux PyFloat.prec PyFloat.emax false q e' l); reflexivity.
Qed.

Lemma to_int_set_sign (s : bool) (y : PyFloat.float) (t : Z) :
  PyFloat.to_int y = Ok t -> 0 <= t ->
  PyFloat.to_int (set_sign s y) = Ok (if s then - t else t).
Proof.
  destruct y as [sy|sy| |sy m e]; cbn [PyFloat.to_int set_sign]; try discriminate.
  - intros [= <-] _. destruct s; reflexivity.
  - set (u := match e with
              | Z.neg p => Z.shiftr (Z.pos m) (Z.pos p)
              | _ => Z.shiftl (Z.pos m) e
              end).
    assert (Hu : 0 <= u).
    { unfold u. destruct e; [apply Z.shiftl_nonneg|apply Z.shiftl_nonneg
                            |apply Z.shiftr_nonneg]; lia. }
    destruct sy; intros [= <-] Ht; [|reflexivity].
    assert (u = 0) by lia. subst u. rewrite H. destruct s; reflexivity.
Qed.

Lemma int_truediv_signed (a b : Z) :
  a <> 0 -> b <> 0 -> Z.abs a < 2 ^ 53 -> Z.abs b < 2 ^ 53 ->
  exists (m : positive) (e : Z),
    PyFloat.int_truediv a b = Ok (S754_finite (PyFloat.quot_sign a b) m e)
    /\ PyFloat.int_truediv (Z.abs a) (Z.abs b) = Ok (S754_finite false m e)
    /\ -105 <= e <= 1.
Proof.
  intros Ha Hb Ha53 Hb53.
  destruct (int_truediv_pos (Z.abs a) (Z.abs b) ltac:(lia) ltac:(lia))
    as (m & e & Hpos & _ & He).
  exists m, e. split; [|split; [exact Hpos|exact He]].
  unfold PyFloat.int_truediv in Hpos |- *.
  replace (Z.abs b =? 0) with false in Hpos by (symmetry; apply Z.eqb_neq; lia).
  replace (Z.abs a =? 0) with false in Hpos by (symmetry; apply Z.eqb_neq; lia).
  replace (b =? 0) with false by (symmetry; apply Z.eqb_neq; lia).
  replace (a =? 0) with false by (symmetry; apply Z.eqb_neq; lia).
  rewrite !Z.abs_idemp in Hpos.
  destruct (SFdiv_core_binary PyFloat.prec PyFloat.emax (Z.abs a) 0 (Z.abs b) 0)
    as [[q e'] l].
  rewrite binary_round_aux_sign in Hpos |- *.
  destruct (binary_round_aux PyFloat.prec PyFloat.emax false q e' l);
    try discriminate Hpos.
  injection Hpos as _ -> ->. reflexivity.
Qed.

Lemma of_int_signed (g : Z) :
  g <> 0 -> Z.abs g < 2 ^ 53 ->
  exists (mg : positive) (eg : Z),
    PyFloat.of_int g = Ok (S754_finite (g <? 0) mg eg)
    /\ PyFloat.of_int (Z.abs g) = Ok (S754_finite false mg eg).
Proof.
  intros Hg Hg53.
  destruct (of_int_exact (Z.abs g) ltac:(lia)) as (mg & eg & Hof & _).
  exists mg, eg. split; [|exact Hof].
  destruct g as [|p|p]; [lia|exact Hof|].
  change (Z.abs (Z.neg p)) with (Z.pos p) in Hof.
  unfold PyFloat.of_int, binary_normalize, binary_round in *.
  destruct (shl_align p 0 _) as [mz ez].
  rewrite binary_round_aux_sign.
  destruct (binary_round_aux PyFloat.prec PyFloat.emax false (Z.pos mz) ez loc_Exact);
    cbn in Hof |- *; try discriminate Hof.
  injection Hof as _ -> ->. reflexivity.
Qed.

Lemma sign_quot (a c k : Z) (s : bool) :
  a <> 0 -> c <> 0 -> k = Z.abs a / Z.abs c ->
  s = xorb (a <? 0) (c <? 0) ->
  (if s then - k else k) = Z.quot a c.
Proof.
  intros Ha Hc -> ->. rewrite (Z.quot_div a c Hc).
  destruct (Z.ltb_spec a 0), (Z.ltb_spec c 0); cbn [xorb];
    rewrite ?(Z.sgn_neg a), ?(Z.sgn_pos a), ?(Z.sgn_neg c), ?(Z.sgn_pos c) by lia;
    lia.
Qed.

Lemma n_iter_signed (num_epoch n_data images_per_batch gpus : Z) :
  Z.abs (num_epoch * n_data) < 2 ^ 53 ->
  0 < Z.abs images_per_batch < 2 ^ 53 ->
  0 < Z.abs gpus < 2 ^ 53 ->
  n_iter num_epoch n_data images_per_batch gpus
  = Ok (Z.quot (num_epoch * n_data) (images_per_batch * gpus)).
Proof.
  intros Ha Hb Hg. unfold n_iter.
  set (a := num_epoch * n_data) in *.
  destruct (of_int_signed gpus ltac:(lia) ltac:(lia)) as (mg & eg & Hof & Hofabs).
  destruct (Z.eq_dec a 0) as [Ha0|Ha0].
  { rewrite Ha0. unfold PyFloat.int_truediv.
    replace (images_per_batch =? 0) with false
      by (symmetry; apply Z.eqb_neq; lia).
    cbn [Z.eqb bind]. unfold PyFloat.truediv_int. rewrite Hof. reflexivity. }
  destruct (int_truediv_signed a images_per_batch Ha0 ltac:(lia) Ha ltac:(lia))
    as (m & e & Hdiv & Hdivabs & He).
  pose proof (two_divisions_to_int (Z.abs a) (Z.abs images_per_batch) (Z.abs gpus)
                ltac:(lia) ltac:(lia) ltac:(lia)) as Hpos.
  rewrite Hdivabs in Hpos. cbn [bind] in Hpos.
  unfold PyFloat.truediv_int in Hpos |- *.
  rewrite Hofabs in Hpos. cbn [bind PyFloat.is_zero] in Hpos.
  rewrite Hdiv. cbn [bind]. rewrite Hof. cbn [bind PyFloat.is_zero].
  rewrite SFdiv_sign.
  rewrite (to_int_set_sign _ _ _ Hpos) by (apply Z.div_pos; nia).
  f_equal. apply sign_quot; [exact Ha0|nia| |].
  - rewrite Z.abs_mul. reflexivity.
  - unfold PyFloat.quot_sign.
    destruct (Z.ltb_spec a 0), (Z.ltb_spec images_per_batch 0),
      (Z.ltb_spec gpus 0), (Z.ltb_spec (images_per_batch * gpus) 0);
      cbn [xorb]; try reflexivity; nia.
Qed.

Lemma n_iter_val_signed (n : Z) :
  Z.abs n < 2 ^ 53 -> n_iter_val n = Ok (Z.quot n 2).
Proof.
  intros Hn. unfold n_iter_val.
  destruct (Z.eq_dec n 0) as [->|Hn0]; [reflexivity|].
  destruct (int_truediv_signed n 2 Hn0 ltac:(lia) Hn ltac:(reflexivity))
    as (m & e & Hdiv & Hdivabs & _).
  pose proof (int_truediv_to_int (Z.abs n) 2 ltac:(lia) ltac:(split; reflexivity))
    as Hpos.
  change (Z.abs 2) with 2 in Hdivabs. rewrite Hdivabs in Hpos. cbn [bind] in Hpos.
  rewrite Hdiv. cbn [bind].
  change (S754_finite (PyFloat.quot_sign n 2) m e)
    with (set_sign (PyFloat.quot_sign n 2) (S754_finite false m e)).
  rewrite (to_int_set_sign _ _ _ Hpos) by (apply Z.div_pos; lia).
  f_equal. apply sign_quot; [exact Hn0|lia|reflexivity|reflexivity].
Qed.

(** X8: for operands of any sign, with epochs times images below [2^53]
    in magnitude and a non-zero batch size and GPU count below [2^53] in
    magnitude, the calculator truncates towards zero:
    [num_iterations] is the truncated quotient of epochs times images by
    batch size times GPU count, and [num_iterations_per_validation] and
    [num_warmup_iterations] are the truncated half of it.  In particular
    zero images give zero everywhere, with no error. *)
Theorem override_of_truncates (num_epoch images_per_batch n_data gpus : Z) :
  Z.abs (num_epoch * n_data) < 2 ^ 53 ->
  0 < Z.abs images_per_batch < 2 ^ 53 ->
  0 < Z.abs gpus < 2 ^ 53 ->
  let n := Z.quot (num_epoch * n_data) (images_per_batch * gpus) in
  override_of num_epoch images_per_batch n_data gpus
  = Ok {| num_iterations := n;
          num_iterations_per_validation := Z.quot n 2;
          num_images_per_batch := images_per_batch;
          num_epochs := num_epoch;
          num_warmup_iterations := Z.quot n 2 |}.
Proof.
  intros Ha Hb Hg n. unfold override_of.
  rewrite n_iter_signed by assumption. cbn [bind]. fold n.
  rewrite n_iter_val_signed; [reflexivity|].
  assert (Hc : images_per_batch * gpus <> 0) by nia.
  pose proof (Z.quot_abs (num_epoch * n_data) _ Hc) as Habs. fold n in Habs.
  rewrite <- Habs.
  apply Z.le_lt_trans with (Z.abs (num_epoch * n_data)); [|exact Ha].
  rewrite Z.quot_div_nonneg by lia.
  apply Z.div_le_upper_bound; [lia|].
  assert (1 <= Z.abs (images_per_batch * gpus)) by lia.
  assert (0 <= Z.abs (num_epoch * n_data)) by lia.
  generalize dependent (Z.abs (num_epoch * n_data)).
  generalize dependent (Z.abs (images_per_batch * gpus)). intros; nia.
Qed.

Lemma override_of_truncates_negative :
  override_of 7 2 (-1) 1
  = Ok {| num_iterations := -3;
          num_iterations_per_validation := -1;
          num_images_per_batch := 2;
          num_epochs := 7;
          num_warmup_iterations := -1 |}.
Proof.
  exact (override_of_truncates 7 2 (-1) 1 eq_refl
           (conj eq_refl eq_refl) (conj eq_refl eq_refl)).
Defined.

(** ** The override calculator: when the counts are zero, and the device count *)



(** X10: how the flag and the device count combine.  With a ["multigpu"]
    entry of false truth value the overrides are those of one GPU whatever
    the device count, zero included.  Without such an entry a device count
    of zero makes the cell raise [ZeroDivisionError] (for epochs times
    images and batch size below [2^53] in magnitude); this is the case of
    the config the notebook writes, for any task name and paths. *)
Theorem override_cell_device_count (cfg : gmap string pyval)
    (device_count max_epochs images_per_batch n_data : Z) :
  (forall flag, cfg !! "multigpu"%string = Some flag -> truthy flag = false ->
     override_cell cfg device_count max_epochs images_per_batch n_data
     = override_param max_epochs images_per_batch n_data 1)
  /\ (cfg !! "multigpu"%string = None
      \/ (exists flag, cfg !! "multigpu"%string = Some flag /\ truthy flag = true) ->
      Z.abs (Z.max max_epochs 2 * n_data) < 2 ^ 53 ->
      Z.abs images_per_batch < 2 ^ 53 ->
      override_cell cfg 0 max_epochs images_per_batch n_data
      = Raise ZeroDivisionError)
  /\ (forall task datalist_file dataroot,
        Z.abs (Z.max max_epochs 2 * n_data) < 2 ^ 53 ->
        Z.abs images_per_batch < 2 ^ 53 ->
        override_cell (input_cfg task datalist_file dataroot) 0
          max_epochs images_per_batch n_data
        = Raise ZeroDivisionError).
Proof.
  assert (Hzero : Z.abs (Z.max max_epochs 2 * n_data) < 2 ^ 53 ->
                  Z.abs images_per_batch < 2 ^ 53 ->
                  override_param max_epochs images_per_batch n_data 0
                  = Raise ZeroDivisionError).
  { intros Ha Hb. unfold override_param, safeguard. rewrite py_max_spec.
    rewrite override_of_zero_gpus.
    destruct (Z.eq_dec images_per_batch 0) as [->|Hne]; [reflexivity|].
    destruct (int_truediv_small _ _ Hne Ha Hb) as [x ->]. reflexivity. }
  split; [|split].
  - intros flag Hflag Hfalse. unfold override_cell, num_gpus.
    rewrite Hflag, Hfalse. reflexivity.
  - intros Hcfg Ha Hb. unfold override_cell, num_gpus.
    destruct Hcfg as [->|(flag & -> & ->)]; cbn [negb]; apply Hzero; assumption.
  - intros task datalist_file dataroot Ha Hb.
    unfold override_cell. rewrite num_gpus_notebook. apply Hzero; assumption.
Qed.

Lemma override_cell_flag_off_no_device :
  override_cell (<["multigpu"%string := PyBool false]> ∅) 0 2 2 24
  = override_param 2 2 24 1.
Proof.
  apply (proj1 (override_cell_device_count
                  (<["multigpu"%string := PyBool false]> ∅) 0 2 2 24)
           (PyBool false)).
  - apply lookup_insert_eq.
  - reflexivity.
Defined.

(** ** The override calculator beyond [2^53]: how far from the quotient *)

Lemma Zdigits2_le (a k : Z) :
  0 <= k -> 0 < a < 2 ^ k -> 1 <= Zdigits2 a <= k.
Proof.
  intros Hk Ha. pose proof (Zdigits2_bounds a ltac:(lia)) as Hb.
  split; [destruct a; cbn; lia|].
  destruct (Z_lt_le_dec k (Zdigits2 a)) as [H|H]; [|exact H].
  assert (2 ^ k <= 2 ^ (Zdigits2 a - 1)) by (apply Z.pow_le_mono_r; lia).
  lia.
Qed.

Section RelativeError.
Local Open Scope R_scope.

(** A rounding is within one part in [2^52] of the real. *)
Lemma rounds_to_relative (V : R) (m : positive) (e : Z) :
  rounds_to V m e ->
  V * (1 - pow2 (- 52)) <= F2R (Z.pos m) e <= V * (1 + pow2 (- 52)).
Proof.
  intros (Hm & lo & eu & Hlo & He & Hbr & Hcase).
  pose proof (pow2_pos eu) as Hu. pose proof (pow2_pos (- 52)) as HE.
  assert (H52 : pow2 52 <= IZR lo) by (rewrite pow2_IZR by lia; apply IZR_le; lia).
  assert (Hinv : pow2 52 * pow2 (- 52) = 1).
  { rewrite <- pow2_add. exact pow2_0. }
  assert (Hulp : pow2 eu <= V * pow2 (- 52)).
  { apply Rle_trans with (IZR lo * pow2 eu * pow2 (- 52)).
    - assert (pow2 eu = pow2 52 * pow2 eu * pow2 (- 52)) by nra.
      rewrite H at 1. apply Rmult_le_compat_r; [lra|]. nra.
    - apply Rmult_le_compat_r; [lra|]. unfold F2R in Hbr. lra. }
  unfold F2R in *. rewrite plus_IZR in Hbr, Hcase.
  destruct Hcase as [->|[-> _]]; split; nra.
Qed.

Lemma int_truediv_wide (a b : Z) :
  (0 < a < 2 ^ 1000)%Z -> (0 < b < 2 ^ 53)%Z ->
  exists (m : positive) (e : Z),
    PyFloat.int_truediv a b = Ok (S754_finite false m e)
    /\ rounds_to (IZR a / IZR b) m e
    /\ (Zdigits2 a - 106 <= e <= Zdigits2 a - 52)%Z.
Proof.
  intros Ha Hb.
  pose proof (Zdigits2_le a 1000 ltac:(lia) Ha) as Hda.
  pose proof (Zdigits2_53 b Hb) as Hdb.
  destruct (div_round_normal a 0 b 0 ltac:(lia) ltac:(lia) ltac:(lia))
    as (m & e & Hr & Hto & He).
  exists m, e. split; [|split; [|lia]].
  - unfold PyFloat.int_truediv.
    replace (b =? 0)%Z with false by (symmetry; apply Z.eqb_neq; lia).
    replace (a =? 0)%Z with false by (symmetry; apply Z.eqb_neq; lia).
    rewrite !Z.abs_eq by lia.
    replace (PyFloat.quot_sign a b) with false.
    2:{ unfold PyFloat.quot_sign.
        replace (a <? 0)%Z with false by (symmetry; apply Z.ltb_ge; lia).
        replace (b <? 0)%Z with false by (symmetry; apply Z.ltb_ge; lia).
        reflexivity. }
    destruct (SFdiv_core_binary PyFloat.prec PyFloat.emax a 0 b 0)
      as [[q e'] l].
    rewrite Hr. reflexivity.
  - unfold F2R in Hto. rewrite pow2_0, !Rmult_1_r in Hto. exact Hto.
Qed.

(** [int(a / b)] on a large [a]: within one part in [2^52], then truncated. *)
Lemma int_truediv_to_int_wide (a b : Z) :
  (0 < a < 2 ^ 1000)%Z -> (0 < b < 2 ^ 53)%Z ->
  exists t : Z,
    (do x <- PyFloat.int_truediv a b ; PyFloat.to_int x) = Ok t
    /\ IZR a / IZR b * (1 - pow2 (- 52)) - 1 < IZR t
       <= IZR a / IZR b * (1 + pow2 (- 52)).
Proof.
  intros Ha Hb.
  destruct (int_truediv_wide a b Ha Hb) as (m & e & -> & Hto & _). cbn [bind].
  destruct (to_int_floor m e) as (t & -> & Hfl).
  exists t. split; [reflexivity|].
  pose proof (rounds_to_relative _ _ _ Hto). lra.
Qed.

Lemma two_divisions_wide (a b g : Z) :
  (0 < a < 2 ^ 900)%Z -> (0 < b < 2 ^ 53)%Z -> (0 < g < 2 ^ 53)%Z ->
  exists n : Z,
    (do q1 <- PyFloat.int_truediv a b ;
     do q2 <- PyFloat.truediv_int q1 g ;
     PyFloat.to_int q2) = Ok n
    /\ IZR a / IZR b / IZR g * (1 - pow2 (- 51)) - 1 < IZR n
       <= IZR a / IZR b / IZR g * (1 + pow2 (- 50)).
Proof.
  intros Ha Hb Hg.
  assert (Ha' : (0 < a < 2 ^ 1000)%Z).
  { split; [lia|]. apply Z.lt_trans with (2 ^ 900)%Z; [lia|].
    apply Z.pow_lt_mono_r; lia. }
  destruct (int_truediv_wide a b Ha' Hb) as (mx & ex & -> & Hto1 & Hex).
  cbn [bind].
  pose proof (Zdigits2_le a 900 ltac:(lia) Ha) as Hda.
  pose proof Hto1 as (Hmx & _).
  destruct (truediv_int_pos mx ex g Hmx ltac:(lia) Hg) as (m & e & -> & Hto2).
  cbn [bind].
  destruct (to_int_floor m e) as (n & -> & Hfl).
  exists n. split; [reflexivity|].
  pose proof (rounds_to_relative _ _ _ Hto1) as Hr1.
  pose proof (rounds_to_relative _ _ _ Hto2) as Hr2.
  assert (HA : 0 < IZR a) by (apply IZR_lt; lia).
  assert (HB : 0 < IZR b) by (apply IZR_lt; lia).
  assert (HG : 0 < IZR g) by (apply IZR_lt; lia).
  set (E := pow2 (- 52)) in *.
  assert (HE : 0 < E) by apply pow2_pos.
  assert (HE1 : E <= / 4).
  { unfold E. replace (/ 4) with (pow2 (- 2)).
    - apply pow2_le. lia.
    - change (-2)%Z with (- (2))%Z. rewrite pow2_opp, (pow2_IZR 2) by lia.
      change (2 ^ 2)%Z with 4%Z. reflexivity. }
  assert (H51 : pow2 (- 51) = 2 * E).
  { unfold E. replace (-51)%Z with (-52 + 1)%Z by lia. apply pow2_succ. }
  assert (H50 : pow2 (- 50) = 4 * E).
  { replace (-50)%Z with (-51 + 1)%Z by lia. rewrite pow2_succ, H51. lra. }
  rewrite H51, H50.
  set (V1 := IZR a / IZR b) in *.
  assert (HV1 : 0 < V1) by (unfold V1; apply Rdiv_lt_0_compat; assumption).
  set (x := F2R (Z.pos mx) ex) in *.
  set (q := V1 / IZR g).
  assert (Hq : q * IZR g = V1) by (unfold q; field; lra).
  assert (Hq0 : 0 < q) by (unfold q; apply Rdiv_lt_0_compat; assumption).
  set (V2 := x / IZR g) in *.
  assert (HV2 : V2 * IZR g = x) by (unfold V2; field; lra).
  assert (HV2hi : V2 <= q * (1 + E)).
  { apply Rmult_le_reg_r with (IZR g); [exact HG|]. nra. }
  assert (HV2lo : q * (1 - E) <= V2).
  { apply Rmult_le_reg_r with (IZR g); [exact HG|]. nra. }
  assert (HV20 : 0 <= V2) by nra.
  set (y := F2R (Z.pos m) e) in *.
  assert (Hyhi : y <= q * (1 + 4 * E)).
  { apply Rle_trans with (q * (1 + E) * (1 + E)); [nra|]. nra. }
  assert (Hylo : q * (1 - 2 * E) <= y).
  { apply Rle_trans with (q * (1 - E) * (1 - E)); [nra|]. nra. }
  lra.
Qed.

End RelativeError.

(** X11: beyond [2^53] the calculator still returns, and stays close to
    the quotient: for positive inputs with epochs times images below
    [2^900] and batch size and GPU count below [2^53], [num_iterations]
    exceeds the real quotient [q] of epochs times images by batch size and
    GPU count by at most [q / 2^50] and falls short of it by less than
    [q / 2^51 + 1]; [num_iterations_per_validation] is within one part in
    [2^52], and the truncation, of half of [num_iterations]. *)
Theorem override_param_relative_error
    (max_epochs images_per_batch n_data gpus : Z) :
  0 < n_data ->
  0 < images_per_batch < 2 ^ 53 ->
  0 < gpus < 2 ^ 53 ->
  Z.max max_epochs 2 * n_data < 2 ^ 900 ->
  exists o,
    override_param max_epochs images_per_batch n_data gpus = Ok o
    /\ (let q := IZR (Z.max max_epochs 2 * n_data) / IZR images_per_batch
                 / IZR gpus in
        q * (1 - pow2 (- 51)) - 1 < IZR (num_iterations o)
        <= q * (1 + pow2 (- 50)))%R
    /\ (IZR (num_iterations o) / 2 * (1 - pow2 (- 52)) - 1
        < IZR (num_iterations_per_validation o)
        <= IZR (num_iterations o) / 2 * (1 + pow2 (- 52)))%R
    /\ num_warmup_iterations o = num_iterations_per_validation o
    /\ num_epochs o = Z.max max_epochs 2.
Proof.
  intros Hn Hb Hg Ha.
  unfold override_param, safeguard, override_of, n_iter. rewrite py_max_spec.
  set (a := Z.max max_epochs 2 * n_data) in *.
  assert (Ha0 : 0 < a) by (unfold a; nia).
  destruct (two_divisions_wide a images_per_batch gpus ltac:(lia) Hb Hg)
    as (n & -> & Hbound).
  cbn [bind].
  (* the count is a non-negative integer below 2^1000 *)
  assert (HA : (0 < IZR a)%R) by (apply IZR_lt; lia).
  assert (HB : (1 <= IZR images_per_batch)%R) by (apply IZR_le; lia).
  assert (HG : (1 <= IZR gpus)%R) by (apply IZR_le; lia).
  assert (HE : (0 < pow2 (- 51) <= 1)%R).
  { split; [apply pow2_pos|]. rewrite <- pow2_0. apply pow2_le. lia. }
  assert (HE' : (0 < pow2 (- 50) <= 1)%R).
  { split; [apply pow2_pos|]. rewrite <- pow2_0. apply pow2_le. lia. }
  set (q := (IZR a / IZR images_per_batch / IZR gpus)%R) in *.
  assert (Hq : (0 < q <= IZR a)%R).
  { assert (Hqq : (q * IZR gpus * IZR images_per_batch = IZR a)%R)
      by (unfold q; field; lra).
    assert (0 < q)%R.
    { unfold q. apply Rdiv_lt_0_compat; [apply Rdiv_lt_0_compat|]; lra. }
    split; [assumption|].
    assert (q <= q * IZR gpus)%R by nra.
    assert (q * IZR gpus <= q * IZR gpus * IZR images_per_batch)%R by nra.
    lra. }
  assert (Hn0 : 0 <= n).
  { assert (IZR (-1) < IZR n)%R by (change (IZR (-1)) with (-1)%R; nra).
    apply lt_IZR in H. lia. }
  assert (Hn1000 : n < 2 ^ 1000).
  { apply lt_IZR. apply Rle_lt_trans with (2 * IZR a)%R; [nra|].
    rewrite <- (mult_IZR 2). apply IZR_lt.
    apply Z.lt_le_trans with (2 * 2 ^ 900); [lia|].
    change (2 * 2 ^ 900) with (2 ^ 901). apply Z.pow_le_mono_r; lia. }
  destruct (Z.eq_dec n 0) as [->|Hne].
  - eexists. split; [reflexivity|].
    cbn [num_iterations num_iterations_per_validation num_warmup_iterations
         num_epochs].
    split; [exact Hbound|]. split; [|split; reflexivity].
    pose proof (pow2_pos (- 52)). lra.
  - destruct (int_truediv_to_int_wide n 2 ltac:(lia) ltac:(split; reflexivity))
      as (v & Hv & Hvb).
    unfold n_iter_val. rewrite Hv. cbn [bind].
    eexists. split; [reflexivity|].
    cbn [num_iterations num_iterations_per_validation num_warmup_iterations
         num_epochs].
    split; [exact Hbound|]. split; [exact Hvb|split; reflexivity].
Qed.

Lemma override_param_relative_error_beyond_2_53 :
  exists o,
    override_param 2 1 9007199254740993 1 = Ok o
    /\ (let q := IZR (Z.max 2 2 * 9007199254740993) / IZR 1 / IZR 1 in
        q * (1 - pow2 (- 51)) - 1 < IZR (num_iterations o)
        <= q * (1 + pow2 (- 50)))%R
    /\ (IZR (num_iterations o) / 2 * (1 - pow2 (- 52)) - 1
        < IZR (num_iterations_per_validation o)
        <= IZR (num_iterations o) / 2 * (1 + pow2 (- 52)))%R
    /\ num_warmup_iterations o = num_iterations_per_validation o
    /\ num_epochs o = Z.max 2 2.
Proof.
  exact (override_param_relative_error 2 1 9007199254740993 1 eq_refl
           (conj eq_refl eq_refl) (conj eq_refl eq_refl) eq_refl).
Defined.
